(** * Object-level mask dropout (albumentations): MaskDropout and MaskDropoutV2

    A shallow embedding of
    [albumentations/augmentations/dropout/mask_dropout.py].

    The two transforms label the connected components of a mask, draw a
    number of components, sample that many label ids, build a boolean
    dropout mask and fill the image and the mask where it is true.

    Third-party code (skimage's [label], Python's [random], OpenCV's
    [boundingRect] and [inpaint], numpy's scalar conversion on assignment)
    and the helper [to_tuple] of [core.transforms_interface] are fields of
    the class [Runtime]; what the development needs of their documented
    contracts is stated in [RuntimeLaws].  A reference runtime, on which
    every definition computes, is given in [Module Ref]. *)

From Stdlib Require Import ZArith QArith List String Bool Lia Permutation.
Import ListNotations.
Open Scope Z_scope.

(** ** Python values *)

(** Exceptions the code and its libraries raise. [CvError] is [cv2.error]. *)
Inductive exn : Type := ValueError | TypeError | IndexError | CvError.

Inductive result (A : Type) : Type :=
| Ok (a : A)
| Raise (e : exn).
Arguments Ok {A} a.
Arguments Raise {A} e.

(** Python numbers: [bool], [int] and [float].  A float is modelled by the
    rational it denotes; products are exact. *)
Inductive num : Type :=
| PyBool (b : bool)
| PyInt (z : Z)
| PyFloat (q : Q).

(** [image_fill_value : Union[int, float, str]]. *)
Inductive fill_value : Type :=
| Num (x : num)
| Str (s : string).

(** The [max_objects] argument of [MaskDropout.__init__]: a scalar or a pair. *)
Inductive bounds_arg : Type :=
| Scalar (x : num)
| Tuple (lo hi : num).

(** [int(x)]: truncation toward zero. *)
Definition int (x : num) : Z :=
  match x with
  | PyBool b => Z.b2z b
  | PyInt z => z
  | PyFloat q => Z.quot (Qnum q) (Zpos (Qden q))
  end.

(** [n * x] for an [int] n. *)
Definition int_mul (n : Z) (x : num) : num :=
  match x with
  | PyBool b => PyInt (n * Z.b2z b)
  | PyInt z => PyInt (n * z)
  | PyFloat q => PyFloat (inject_Z n * q)
  end.

(** [range(a, b)]. *)
Definition range (a b : Z) : list Z :=
  map (fun i => a + Z.of_nat i) (seq 0 (Z.to_nat (b - a))).

(** ** numpy arrays

    A two-dimensional array is its shape and its row-major buffer.  An image
    of shape (H, W, C) is a two-dimensional array of pixels, each the list of
    its C channel samples; an image of shape (H, W) has one sample per
    pixel. *)
Record ndarray (A : Type) : Type := mk_ndarray {
  shape0 : nat;
  shape1 : nat;
  data : list A
}.
Arguments mk_ndarray {A} shape0 shape1 data.
Arguments shape0 {A} _.
Arguments shape1 {A} _.
Arguments data {A} _.

Definition shape {A} (a : ndarray A) : nat * nat := (shape0 a, shape1 a).

Definition shape_eqb {A B} (a : ndarray A) (b : ndarray B) : bool :=
  Nat.eqb (shape0 a) (shape0 b) && Nat.eqb (shape1 a) (shape1 b).

Definition amap {A B} (f : A -> B) (a : ndarray A) : ndarray B :=
  mk_ndarray (shape0 a) (shape1 a) (map f (data a)).

(** [np.zeros((h, w), dtype=bool)]. *)
Definition zeros (h w : nat) : ndarray bool :=
  mk_ndarray h w (repeat false (h * w)).

(** [a > c] and [a == c] against a scalar. *)
Definition gt_scalar (a : ndarray Z) (c : Z) : ndarray bool :=
  amap (fun v => c <? v) a.

Definition eq_scalar (a : ndarray Z) (c : Z) : ndarray bool :=
  amap (fun v => v =? c) a.

Fixpoint zip_or (xs ys : list bool) : list bool :=
  match xs, ys with
  | x :: xs', y :: ys' => (x || y)%bool :: zip_or xs' ys'
  | _, _ => xs
  end.

(** [a |= b], in place on [a]: the shape of [a] is kept. *)
Definition ior (a b : ndarray bool) : ndarray bool :=
  mk_ndarray (shape0 a) (shape1 a) (zip_or (data a) (data b)).

(** [a.astype(np.uint8)] on a boolean array. *)
Definition astype_uint8 (a : ndarray bool) : ndarray Z :=
  amap Z.b2z a.

(** The buffer of [a[m] = ...]: the elements under a true of [m] are
    replaced through [f], the others are kept. *)
Fixpoint assign_where {A} (f : A -> A) (ms : list bool) (xs : list A)
  {struct xs} : list A :=
  match xs with
  | [] => []
  | x :: xs' =>
      match ms with
      | [] => x :: xs'
      | m :: ms' => (if m then f x else x) :: assign_where f ms' xs'
      end
  end.

Definition Mask : Type := ndarray Z.
Definition BoolMask : Type := ndarray bool.
Definition Image : Type := ndarray (list Z).

(** [cv2.INPAINT_NS]. *)
Definition INPAINT_NS : Z := 0.

(** ** The libraries the module calls *)

Class Runtime : Type := {
  (** the state of Python's global generator *)
  rng : Type;
  (** [skimage.measure.label(mask, return_num=True)] *)
  label : Mask -> ndarray Z * Z;
  (** [random.randint(a, b)] *)
  randint : num -> num -> rng -> result (Z * rng);
  (** [random.sample(population, k)] *)
  sample : list Z -> Z -> rng -> result (list Z * rng);
  (** [cv2.boundingRect(mask)]: x, y, w, h *)
  boundingRect : ndarray Z -> Z * Z * Z * Z;
  (** [cv2.inpaint(img, mask, radius, flags)] *)
  inpaint : Image -> ndarray Z -> Z -> Z -> result Image;
  (** the sample numpy stores when a Python object is assigned into an array *)
  setitem_cast : fill_value -> result Z;
  (** [to_tuple(param, low)] of [core.transforms_interface], which is not
      among the sources *)
  to_tuple : bounds_arg -> num -> result (num * num)
}.

(** The documented contracts of [random.randint] and [random.sample]. *)
Class RuntimeLaws (R : Runtime) : Prop := {
  randint_range : forall a b s, a <= b ->
    exists k s', randint (PyInt a) (PyInt b) s = Ok (k, s') /\ a <= k <= b;
  randint_empty : forall a b s, b < a ->
    randint (PyInt a) (PyInt b) s = Raise ValueError;
  sample_ok : forall pop k s, 0 <= k <= Z.of_nat (List.length pop) ->
    exists l s', sample pop k s = Ok (l, s') /\
      Z.of_nat (List.length l) = k /\ exists rest, Permutation (l ++ rest) pop;
  sample_bad : forall pop k s, k < 0 \/ Z.of_nat (List.length pop) < k ->
    sample pop k s = Raise ValueError
}.

(** ** Computations that use the generator and may raise *)

Section Effects.
Context {R : Runtime}.

Definition M (A : Type) : Type := rng -> result (A * rng).

Definition ret {A} (a : A) : M A := fun s => Ok (a, s).

Definition bind {A B} (m : M A) (k : A -> M B) : M B :=
  fun s => match m s with
           | Ok (a, s') => k a s'
           | Raise e => Raise e
           end.

(** [a = a.copy(); a[m] = v] with a boolean index [m] and a Python scalar
    [v]: numpy raises IndexError unless [m] has the shape of the leading two
    axes of [a], then converts [v] and writes it, through [write], to every
    element under a true of [m]. *)
Definition setitem {A} (write : Z -> A -> A) (a : ndarray A) (m : BoolMask)
    (v : fill_value) : result (ndarray A) :=
  if shape_eqb m a then
    match setitem_cast v with
    | Ok c => Ok (mk_ndarray (shape0 a) (shape1 a)
                    (assign_where (write c) (data m) (data a)))
    | Raise e => Raise e
    end
  else Raise IndexError.

(** A scalar is broadcast to every channel of a pixel. *)
Definition write_pixel (c : Z) (px : list Z) : list Z := map (fun _ => c) px.

Definition write_sample (c : Z) (_ : Z) : Z := c.
End Effects.

Notation "x <- m ;; k" := (bind m (fun x => k))
(at level 61, m at next level, right associativity).

(** ** DualTransform *)

Module DualTransform.
(** Modelled from the spec: [DualTransform] of [core.transforms_interface]
    is not among the sources.  The spec lists the activation probability
    and the always-apply flag in the configuration and leaves the gating to
    the framework: the base constructor records its two arguments. *)
Record t : Type := mk { always_apply : bool; p : Q }.

(** Modelled from the spec: [DualTransform.__init__(always_apply, p)], not
    among the sources, stores the flag and the probability it is given. *)
Definition __init__ (always_apply : bool) (p : Q) : t := mk always_apply p.
End DualTransform.

(** The attributes of a transform object. *)
Record transform : Type := mk_transform {
  base : DualTransform.t;
  max_objects : num * num;
  image_fill_value : fill_value;
  mask_fill_value : num
}.

(** The [params] dictionary: its "mask" entry and its "dropout_mask" entry,
    [None] when the entry is absent or is Python's [None] (the default of the
    [dropout_mask] argument of [apply]). *)
Record Params : Type := mk_params {
  mask : Mask;
  dropout_mask : option BoolMask
}.

Definition update (params : Params) (dm : option BoolMask) : Params :=
  mk_params (mask params) dm.

(** The local variables of the branch that draws objects. *)
Record drawn : Type := mk_drawn {
  objects_to_drop : Z;
  labels_index : option (list Z);
  drawn_mask : BoolMask
}.

Definition fill_is (v : fill_value) (s : string) : bool :=
  match v with
  | Str s' => String.eqb s' s
  | Num _ => false
  end.

(** The loop [for label_index in labels_index: dropout_mask |= label_image == label_index]. *)
Definition or_labels (label_image : ndarray Z) (labels_index : list Z)
    (dropout_mask : BoolMask) : BoolMask :=
  fold_left (fun dm label_index => ior dm (eq_scalar label_image label_index))
            labels_index dropout_mask.

(** Does position [i] of the label image carry one of [ids]? *)
Definition labelled_in (label_image : ndarray Z) (ids : list Z) (i : nat) : bool :=
  existsb (fun id => match nth_error (data label_image) i with
                     | Some v => v =? id
                     | None => false
                     end) ids.

(** ** MaskDropout *)

Module MaskDropout.
Section WithRuntime.
Context {R : Runtime}.

(** The defaults of the signature of [__init__]. *)
Definition default_max_objects : bounds_arg := Scalar (PyInt 1).
Definition default_image_fill_value : fill_value := Num (PyInt 0).
Definition default_mask_fill_value : num := PyInt 0.
Definition default_always_apply : bool := false.
Definition default_p : Q := 1 # 2.

Definition __init__ (max_objects : bounds_arg) (image_fill_value : fill_value)
    (mask_fill_value : num) (always_apply : bool) (p : Q) : result transform :=
  let self := DualTransform.__init__ always_apply p in
  match to_tuple max_objects (PyInt 1) with
  | Ok max_objects' =>
      Ok (mk_transform self max_objects' image_fill_value mask_fill_value)
  | Raise e => Raise e
  end.

(** The [else] branch of [get_params_dependent_on_targets], with its local
    variables. *)
Definition draw (self : transform) (mask : Mask) (label_image : ndarray Z)
    (num_labels : Z) : M drawn :=
  objects_to_drop <- randint (fst (max_objects self)) (snd (max_objects self)) ;;
  let objects_to_drop := Z.min num_labels objects_to_drop in
  if objects_to_drop =? num_labels then
    ret (mk_drawn objects_to_drop None (gt_scalar mask 0))
  else
    labels_index <- sample (range 1 (num_labels + 1)) objects_to_drop ;;
    let dropout_mask := zeros (shape0 mask) (shape1 mask) in
    ret (mk_drawn objects_to_drop (Some labels_index)
           (or_labels label_image labels_index dropout_mask)).

Definition get_params_dependent_on_targets (self : transform) (params : Params)
  : M Params :=
  let mask := mask params in
  let '(label_image, num_labels) := label mask in
  dropout_mask <-
    (if num_labels =? 0 then ret None
     else d <- draw self mask label_image num_labels ;; ret (Some (drawn_mask d))) ;;
  ret (update params dropout_mask).

Definition apply (self : transform) (img : Image) (dropout_mask : option BoolMask)
  : result Image :=
  match dropout_mask with
  | None => Ok img
  | Some dropout_mask =>
      if fill_is (image_fill_value self) "inpaint" then
        let dropout_mask := astype_uint8 dropout_mask in
        let '(_, _, w, h) := boundingRect dropout_mask in
        let radius := Z.min 3 (Z.max w h / 2) in
        inpaint img dropout_mask radius INPAINT_NS
      else
        setitem write_pixel img dropout_mask (image_fill_value self)
  end.

Definition apply_to_mask (self : transform) (img : Mask)
    (dropout_mask : option BoolMask) : result Mask :=
  match dropout_mask with
  | None => Ok img
  | Some dropout_mask =>
      setitem write_sample img dropout_mask (Num (mask_fill_value self))
  end.

End WithRuntime.
End MaskDropout.

(** ** MaskDropoutV2 *)

Module MaskDropoutV2.
Section WithRuntime.
Context {R : Runtime}.

Definition default_image_fill_value : fill_value := Num (PyInt 0).
Definition default_mask_fill_value : num := PyInt 0.
Definition default_always_apply : bool := false.
Definition default_p : Q := 1 # 2.

(** [super().__init__(always_apply, p)] binds the two positional arguments to
    the first two parameters of [MaskDropout.__init__], [max_objects] and
    [image_fill_value]; the other three take their defaults. *)
Definition __init__ (max_objects : num * num) (image_fill_value : fill_value)
    (mask_fill_value : num) (always_apply : bool) (p : Q) : result transform :=
  match MaskDropout.__init__ (Scalar (PyBool always_apply)) (Num (PyFloat p))
          MaskDropout.default_mask_fill_value
          MaskDropout.default_always_apply
          MaskDropout.default_p with
  | Ok self =>
      Ok (mk_transform (base self) max_objects image_fill_value mask_fill_value)
  | Raise e => Raise e
  end.

Definition draw (self : transform) (mask : Mask) (label_image : ndarray Z)
    (num_labels : Z) : M drawn :=
  objects_to_drop <-
    randint (PyInt (int (int_mul num_labels (fst (max_objects self)))))
            (PyInt (int (int_mul num_labels (snd (max_objects self))))) ;;
  labels_index <- sample (range 1 (num_labels + 1)) objects_to_drop ;;
  let dropout_mask := zeros (shape0 mask) (shape1 mask) in
  ret (mk_drawn objects_to_drop (Some labels_index)
         (or_labels label_image labels_index dropout_mask)).

Definition get_params_dependent_on_targets (self : transform) (params : Params)
  : M Params :=
  let mask := mask params in
  let '(label_image, num_labels) := label mask in
  dropout_mask <-
    (if num_labels =? 0 then ret None
     else d <- draw self mask label_image num_labels ;; ret (Some (drawn_mask d))) ;;
  ret (update params dropout_mask).

Definition apply (self : transform) (img : Image) (dropout_mask : option BoolMask)
  : result Image :=
  match dropout_mask with
  | None => Ok img
  | Some dropout_mask =>
      if fill_is (image_fill_value self) "inpaint" then
        let dropout_mask := astype_uint8 dropout_mask in
        let '(_, _, w, h) := boundingRect dropout_mask in
        let radius := Z.min 3 (Z.max w h / 2) in
        inpaint img dropout_mask radius INPAINT_NS
      else
        setitem write_pixel img dropout_mask (image_fill_value self)
  end.

Definition apply_to_mask (self : transform) (img : Mask)
    (dropout_mask : option BoolMask) : result Mask :=
  match dropout_mask with
  | None => Ok img
  | Some dropout_mask =>
      setitem write_sample img dropout_mask (Num (mask_fill_value self))
  end.

End WithRuntime.
End MaskDropoutV2.

(** ** numpy: indexing and rolling *)

(** The buffer holds one element per position of the shape. *)
Definition well_formed {A} (a : ndarray A) : Prop :=
  List.length (data a) = (shape0 a * shape1 a)%nat.

(** [a[r, c]], [None] for an index out of range. *)
Definition getitem {A} (a : ndarray A) (r c : nat) : option A :=
  if (r <? shape0 a)%nat && (c <? shape1 a)%nat
  then nth_error (data a) (r * shape1 a + c)
  else None.

Inductive axis : Type := axis0 | axis1.

(** [offset %= a.shape[ax] or 1] of [np.roll]. *)
Definition roll_offset (shift : Z) (n : nat) : nat :=
  Z.to_nat (shift mod Z.of_nat (Nat.max n 1)).

(** The two slice copies of [np.roll] along an axis of length [n] whose
    indices span [w] buffer elements each: [result[off:] = a[:n-off]] and
    [result[:off] = a[n-off:]], made only [if offset]. *)
Definition roll_slices {A} (off n w : nat) (l : list A) : list A :=
  if (off =? 0)%nat then l
  else skipn ((n - off) * w) l ++ firstn ((n - off) * w) l.

(** [f] on each of the [h] rows of [w] elements of a row-major buffer. *)
Fixpoint map_rows {A} (f : list A -> list A) (h w : nat) (l : list A)
  : list A :=
  match h with
  | O => []
  | S h' => f (firstn w l) ++ map_rows f h' w (skipn w l)
  end.

(** [np.roll(a, shift, axis)] on a two-dimensional array. *)
Definition np_roll {A} (a : ndarray A) (shift : Z) (ax : axis) : ndarray A :=
  match ax with
  | axis0 =>
      mk_ndarray (shape0 a) (shape1 a)
        (roll_slices (roll_offset shift (shape0 a)) (shape0 a) (shape1 a) (data a))
  | axis1 =>
      mk_ndarray (shape0 a) (shape1 a)
        (map_rows (roll_slices (roll_offset shift (shape1 a)) (shape1 a) 1)
           (shape0 a) (shape1 a) (data a))
  end.

(** The index along an axis of length [n] from which a roll by [shift]
    fetches the element it puts at index [i]. *)
Definition roll_source (shift : Z) (n i : nat) : nat :=
  Z.to_nat ((Z.of_nat i - shift) mod Z.of_nat n).

(** ** Roll  ([augmentations/geometric/roll.py]) *)

Module Roll.
Section WithRuntime.
Context {R : Runtime}.

(** The returned dictionary, with the keys "roll_x" and "roll_y". *)
Record rolls : Type := mk_rolls { roll_x : Z; roll_y : Z }.

Definition default_always_apply : bool := false.
Definition default_p : Q := 1 # 2.
Definition default_roll_x : Z := 0.
Definition default_roll_y : Z := 0.

Definition __init__ (always_apply : bool) (p : Q) : DualTransform.t :=
  DualTransform.__init__ always_apply p.

(** [image] is [params["image"]]. *)
Definition get_params_dependent_on_targets {A} (self : DualTransform.t)
    (image : ndarray A) : M rolls :=
  roll_x <- randint (PyInt 0) (PyInt (Z.of_nat (shape0 image))) ;;
  roll_y <- randint (PyInt 0) (PyInt (Z.of_nat (shape1 image))) ;;
  ret (mk_rolls roll_x roll_y).

Definition apply {A} (self : DualTransform.t) (img : ndarray A)
    (roll_x roll_y : Z) : ndarray A :=
  let img := np_roll img roll_y axis0 in
  let img := np_roll img roll_x axis1 in
  img.

Definition apply_to_mask {A} (self : DualTransform.t) (img : ndarray A)
    (roll_x roll_y : Z) : ndarray A :=
  let img := np_roll img roll_y axis0 in
  let img := np_roll img roll_x axis1 in
  img.

End WithRuntime.
End Roll.

(** ** A reference runtime

    Executable stand-ins for the libraries, used to run the definitions on
    concrete inputs.  The generator is a tape of raw draws. *)

Module Ref.

Definition tape : Type := list Z.

Definition next (s : tape) : Z * tape :=
  match s with
  | [] => (0, [])
  | r :: s' => (r, s')
  end.

Definition as_int (x : num) : result Z :=
  match x with
  | PyInt z => Ok z
  | PyBool b => Ok (Z.b2z b)
  | PyFloat _ => Raise TypeError
  end.

(** [random.randint(a, b)]: ValueError on an empty range. *)
Definition randint (a b : num) (s : tape) : result (Z * tape) :=
  match as_int a, as_int b with
  | Ok a', Ok b' =>
      if b' <? a' then Raise ValueError
      else let '(r, s') := next s in Ok (a' + r mod (b' - a' + 1), s')
  | Raise e, _ => Raise e
  | _, Raise e => Raise e
  end.

Fixpoint remove_nth {A} (n : nat) (l : list A) : list A :=
  match l, n with
  | [], _ => []
  | _ :: l', O => l'
  | x :: l', S n' => x :: remove_nth n' l'
  end.

(** [k] draws without replacement from [pool]. *)
Fixpoint pick (k : nat) (pool : list Z) (s : tape) : list Z * tape :=
  match k with
  | O => ([], s)
  | S k' =>
      let '(r, s') := next s in
      let j := Z.to_nat (r mod Z.of_nat (List.length pool)) in
      let '(l, s'') := pick k' (remove_nth j pool) s' in
      (nth j pool 0 :: l, s'')
  end.

(** [random.sample(population, k)]: ValueError when the sample is larger
    than the population or negative. *)
Definition sample (pop : list Z) (k : Z) (s : tape) : result (list Z * tape) :=
  if (k <? 0) || (Z.of_nat (List.length pop) <? k) then Raise ValueError
  else Ok (pick (Z.to_nat k) pop s).

(** Connected components of equal non-zero samples under 8-connectivity:
    every foreground pixel starts with its own id, ids are minimised over
    neighbours until stable, then numbered 1..N in raster order. *)
Definition absdiff (a b : nat) : nat := (a - b) + (b - a).

Definition adjacent (w i j : nat) : bool :=
  (absdiff (i / w) (j / w) <=? 1)%nat && (absdiff (i mod w) (j mod w) <=? 1)%nat.

Definition sweep (w : nat) (vals labs : list Z) : list Z :=
  let idx := seq 0 (List.length vals) in
  map (fun i =>
         let v := nth i vals 0 in
         if v =? 0 then 0
         else fold_left
                (fun acc j =>
                   if adjacent w i j && (nth j vals 0 =? v)
                   then Z.min acc (nth j labs 0) else acc)
                idx (nth i labs 0))
      idx.

Definition roots (labs : list Z) : list Z :=
  fold_left (fun acc x =>
               if (x =? 0) || existsb (Z.eqb x) acc then acc else acc ++ [x])
            labs [].

Fixpoint index_of (x : Z) (l : list Z) : Z :=
  match l with
  | [] => 0
  | y :: l' => if x =? y then 1 else 1 + index_of x l'
  end.

Definition label (m : Mask) : ndarray Z * Z :=
  let vals := data m in
  let init := map (fun i => if nth i vals 0 =? 0 then 0 else Z.of_nat (S i))
                  (seq 0 (List.length vals)) in
  let labs := Nat.iter (List.length vals) (sweep (shape1 m) vals) init in
  let rs := roots labs in
  (mk_ndarray (shape0 m) (shape1 m)
     (map (fun x => if x =? 0 then 0 else index_of x rs) labs),
   Z.of_nat (List.length rs)).

(** The bounding rectangle (x, y, w, h) of the non-zero samples; all zero on
    an array without any. *)
Definition boundingRect (a : ndarray Z) : Z * Z * Z * Z :=
  let w := shape1 a in
  let on := filter (fun i => negb (nth i (data a) 0 =? 0))
                   (seq 0 (List.length (data a))) in
  match on with
  | [] => (0, 0, 0, 0)
  | i0 :: _ =>
      let cols := map (fun i => Z.of_nat (i mod w)) on in
      let rows := map (fun i => Z.of_nat (i / w)) on in
      let lo l := fold_left Z.min l (Z.of_nat (List.length (data a))) in
      let hi l := fold_left Z.max l 0 in
      (lo cols, lo rows, hi cols - lo cols + 1, hi rows - lo rows + 1)
  end.

(** Each masked pixel takes the last unmasked pixel before it in raster
    order.  The radius and the flags are not used. *)
Fixpoint patch (last : option (list Z)) (ms : list Z) (xs : list (list Z))
  : list (list Z) :=
  match xs, ms with
  | x :: xs', m :: ms' =>
      if m =? 0 then x :: patch (Some x) ms' xs'
      else match last with
           | Some y => y :: patch last ms' xs'
           | None => x :: patch last ms' xs'
           end
  | _, _ => xs
  end.

(** OpenCV documents the input of [inpaint] as an 8-bit 1-channel or
    3-channel image (and 16-bit or float 1-channel) with a mask of the same
    size, and raises [cv2.error] otherwise. *)
Definition inpaint (img : Image) (m : ndarray Z) (radius flags : Z)
  : result Image :=
  if shape_eqb m img
     && forallb (fun px => (List.length px =? 1)%nat || (List.length px =? 3)%nat)
                (data img)
  then Ok (mk_ndarray (shape0 img) (shape1 img) (patch None (data m) (data img)))
  else Raise CvError.

(** numpy converts a number to the integer dtype of the array (a float is
    truncated) and refuses a string. *)
Definition setitem_cast (v : fill_value) : result Z :=
  match v with
  | Num x => Ok (int x)
  | Str _ => Raise ValueError
  end.

Definition num_ltb (a b : num) : bool :=
  match a, b with
  | PyFloat x, PyFloat y => if Qlt_le_dec x y then true else false
  | PyFloat x, _ => if Qlt_le_dec x (inject_Z (int b)) then true else false
  | _, PyFloat y => if Qlt_le_dec (inject_Z (int a)) y then true else false
  | _, _ => int a <? int b
  end.

(** Modelled from the spec: [to_tuple] of [core.transforms_interface] is not
    among the sources.  The spec gives [max_objects] as an integer or a
    (min, max) pair: a pair is kept as it is, a scalar is paired with [low],
    the smaller first. *)
Definition to_tuple (param : bounds_arg) (low : num) : result (num * num) :=
  match param with
  | Scalar x => Ok (if num_ltb low x then (low, x) else (x, low))
  | Tuple lo hi => Ok (lo, hi)
  end.

#[export] Instance runtime : Runtime :=
  Build_Runtime tape label randint sample boundingRect inpaint setitem_cast
    to_tuple.
End Ref.

(** ** Concrete inputs *)

Module Examples.

(** A 5 by 5 mask with two disjoint blobs. *)
Definition two_blobs : Mask :=
  mk_ndarray 5 5
    [1; 1; 0; 0; 0;
     1; 1; 0; 0; 0;
     0; 0; 0; 0; 0;
     0; 0; 0; 2; 2;
     0; 0; 0; 2; 2].

(** The dropout mask of its second blob. *)
Definition second_blob : BoolMask :=
  mk_ndarray 5 5
    [false; false; false; false; false;
     false; false; false; false; false;
     false; false; false; false; false;
     false; false; false; true; true;
     false; false; false; true; true].

Definition one_pixel : Mask := mk_ndarray 1 1 [1].

Definition background : Mask := mk_ndarray 2 2 [0; 0; 0; 0].

(** A 3-channel image of 5 by 5 pixels and a 1-channel image of 2 by 2. *)
Definition rgb : Image :=
  mk_ndarray 5 5
    (map (fun i => [Z.of_nat i; 100 + Z.of_nat i; 200]) (seq 0 25)).

Definition gray : Image := mk_ndarray 2 2 [[10]; [20]; [30]; [40]].

Definition gray_dropout : BoolMask := mk_ndarray 2 2 [false; true; false; false].

(** A dropout mask of 3 by 12 whose true region is 10 wide and 2 high. *)
Definition strip : BoolMask :=
  mk_ndarray 3 12
    (map (fun i => (i <? 24)%nat && (1 <=? i mod 12)%nat && (i mod 12 <=? 10)%nat)
         (seq 0 36)).

Definition wide : Image :=
  mk_ndarray 3 12 (map (fun i => [Z.of_nat i; 0; 0]) (seq 0 36)).

Definition configured (bounds : num * num) (fill : fill_value) : transform :=
  mk_transform (DualTransform.mk false (1 # 2)) bounds fill (PyInt 0).

Definition drop_one : transform := configured (PyInt 1, PyInt 1) (Num (PyInt 0)).
Definition drop_up_to_three : transform :=
  configured (PyInt 1, PyInt 3) (Num (PyInt 0)).
Definition reversed : transform := configured (PyInt 3, PyInt 1) (Num (PyInt 0)).
Definition twice_over : transform :=
  configured (PyFloat 0, PyFloat 2) (Num (PyInt 0)).
Definition inpainting : transform :=
  configured (PyInt 1, PyInt 1) (Str "inpaint").

End Examples.

Module MoreExamples.
Import Examples.

(** A 3 by 4 array and a boolean array of the same shape. *)
Definition grid : ndarray Z :=
  mk_ndarray 3 4
    [0; 1; 2; 3;
     10; 11; 12; 13;
     20; 21; 22; 23].

Definition flags : ndarray bool :=
  mk_ndarray 3 4
    [true; false; false; false;
     false; false; true; false;
     false; false; false; false].

Definition roll : DualTransform.t := Roll.__init__ false (1 # 2).

(** [rgb] with the pixels of the second blob set to 0. *)
Definition rgb_dropped : Image :=
  mk_ndarray 5 5
    (map (fun i => if nth i (data second_blob) false then [0; 0; 0]
                   else [Z.of_nat i; 100 + Z.of_nat i; 200])
         (seq 0 25)).

Definition drop_none : transform := configured (PyInt 0, PyInt 0) (Num (PyInt 0)).
Definition drop_negative : transform :=
  configured (PyInt (-4), PyInt (-2)) (Num (PyInt 0)).
Definition drop_two_to_five : transform :=
  configured (PyInt 2, PyInt 5) (Num (PyInt 0)).
Definition every_label : transform :=
  configured (PyFloat 1, PyFloat 1) (Num (PyInt 0)).

End MoreExamples.

(** * Properties *)

(** ** Lists, ranges and arrays *)

Lemma range_In (a b x : Z) : In x (range a b) <-> a <= x < b.
Proof.
  unfold range. rewrite in_map_iff. split.
  - intros [i [Hx Hi]]. apply in_seq in Hi. lia.
  - intros H. exists (Z.to_nat (x - a)). split; [lia|].
    apply in_seq. lia.
Qed.

Lemma range_length (a b : Z) : List.length (range a b) = Z.to_nat (b - a).
Proof. unfold range. now rewrite length_map, length_seq. Qed.

Lemma range_NoDup (a b : Z) : NoDup (range a b).
Proof.
  unfold range. generalize (seq_NoDup (Z.to_nat (b - a)) 0).
  generalize (seq 0 (Z.to_nat (b - a))) as l.
  induction l as [|i l IH]; intros Hnd; simpl; [constructor|].
  inversion Hnd as [|? ? Hi Hl]; subst. constructor; [|now apply IH].
  rewrite in_map_iff. intros [j [Hj Hin]].
  assert (j = i) by lia. now subst.
Qed.

Lemma Permutation_prefix_NoDup {A} (l rest pop : list A) :
  Permutation (l ++ rest) pop -> NoDup pop -> NoDup l.
Proof.
  intros Hp Hnd. apply Permutation_sym in Hp.
  apply (Permutation_NoDup Hp) in Hnd.
  now apply NoDup_app_remove_r in Hnd.
Qed.

Lemma Permutation_prefix_incl {A} (l rest pop : list A) :
  Permutation (l ++ rest) pop -> incl l pop.
Proof.
  intros Hp x Hx. apply (Permutation_in x Hp). apply in_or_app. now left.
Qed.

Lemma zip_or_length (xs ys : list bool) :
  List.length (zip_or xs ys) = List.length xs.
Proof.
  revert ys. induction xs as [|x xs IH]; intros [|y ys]; simpl; auto.
Qed.

Lemma or_labels_shape (label_image : ndarray Z) (ids : list Z) (dm : BoolMask) :
  shape (or_labels label_image ids dm) = shape dm.
Proof.
  unfold or_labels. revert dm.
  induction ids as [|i ids IH]; intros dm; simpl; [reflexivity|].
  now rewrite IH.
Qed.

Lemma shape_eqb_true {A B} (a : ndarray A) (b : ndarray B) :
  shape_eqb a b = true <-> shape a = shape b.
Proof.
  unfold shape_eqb, shape. rewrite andb_true_iff, !Nat.eqb_eq.
  split; [intros [-> ->]; reflexivity | intros H; now inversion H].
Qed.

(** What [a[m] = ...] leaves at each position of the buffer. *)
Lemma assign_where_nth {A} (f : A -> A) (ms : list bool) (xs : list A) (i : nat) :
  nth_error (assign_where f ms xs) i =
  option_map (fun x => if nth i ms false then f x else x) (nth_error xs i).
Proof.
  revert ms i. induction xs as [|x xs IH]; intros ms i.
  - destruct i; reflexivity.
  - destruct ms as [|m ms]; simpl.
    + destruct i as [|i]; simpl; [reflexivity|].
      destruct (nth_error xs i); simpl; [|reflexivity].
      now destruct i.
    + destruct i as [|i]; simpl; [reflexivity|]. apply IH.
Qed.

Lemma gt_scalar_nth (a : ndarray Z) (i : nat) :
  nth i (data (gt_scalar a 0)) false = (0 <? nth i (data a) 0).
Proof.
  unfold gt_scalar, amap; simpl.
  change false with ((fun v => 0 <? v) 0) at 1. apply map_nth.
Qed.

Lemma zip_or_nth (xs ys : list bool) (i : nat) :
  nth i (zip_or xs ys) false
  = (nth i xs false || ((i <? List.length xs)%nat && nth i ys false))%bool.
Proof.
  revert ys i. induction xs as [|x xs IH]; intros ys i; simpl.
  - now destruct i.
  - destruct ys as [|y ys]; simpl.
    + destruct i; simpl; [now rewrite orb_false_r|].
      now rewrite andb_false_r, orb_false_r.
    + destruct i as [|i]; simpl; [reflexivity|]. apply IH.
Qed.

Lemma eq_scalar_nth (a : ndarray Z) (c : Z) (i : nat) :
  nth i (data (eq_scalar a c)) false
  = match nth_error (data a) i with Some v => v =? c | None => false end.
Proof.
  unfold eq_scalar, amap; simpl. generalize (data a) as l. clear a.
  intros l. revert i. induction l as [|v l IH]; intros [|i]; simpl; auto.
Qed.

(** The dropout mask is true exactly where the label image carries one of
    the selected ids (or where it was true before the loop). *)
Lemma or_labels_nth (label_image : ndarray Z) (ids : list Z) (i : nat) :
  forall dm : BoolMask,
    nth i (data (or_labels label_image ids dm)) false
    = (nth i (data dm) false
       || ((i <? List.length (data dm))%nat && labelled_in label_image ids i))%bool.
Proof.
  induction ids as [|id ids IH]; intros dm.
  - unfold or_labels, labelled_in; simpl.
    now rewrite andb_false_r, orb_false_r.
  - change (or_labels label_image (id :: ids) dm)
      with (or_labels label_image ids (ior dm (eq_scalar label_image id))).
    rewrite IH.
    change (data (ior dm (eq_scalar label_image id)))
      with (zip_or (data dm) (data (eq_scalar label_image id))).
    rewrite zip_or_nth, zip_or_length, eq_scalar_nth.
    unfold labelled_in; simpl.
    destruct (nth i (data dm) false), (i <? List.length (data dm))%nat,
      (nth_error (data label_image) i) as [v|]; simpl; try reflexivity.
Qed.

Lemma or_labels_zeros (label_image : ndarray Z) (ids : list Z) (h w i : nat) :
  nth i (data (or_labels label_image ids (zeros h w))) false
  = ((i <? h * w)%nat && labelled_in label_image ids i)%bool.
Proof.
  rewrite or_labels_nth. simpl. rewrite repeat_length.
  replace (nth i (repeat false (h * w)) false) with false; [reflexivity|].
  symmetry. destruct (Nat.lt_ge_cases i (h * w)) as [Hi|Hi].
  - now apply nth_repeat_lt.
  - apply nth_overflow. now rewrite repeat_length.
Qed.

(** Takes the branch [num_labels != 0] when the context bounds N from below. *)
Ltac some_labels N :=
  replace (N =? 0) with false by (symmetry; apply Z.eqb_neq; lia).

(** ** What follows from the contracts of the generator *)

Section Generator.
Context {R : Runtime} {L : RuntimeLaws R}.

Lemma randint_sound (a b : Z) (s s' : rng) (k : Z) :
  randint (PyInt a) (PyInt b) s = Ok (k, s') -> a <= k <= b.
Proof.
  intros H. destruct (Z_le_gt_dec a b) as [Hab|Hab].
  - destruct (randint_range a b s Hab) as [k0 [s0 [E Hk]]].
    rewrite E in H. now inversion H; subst.
  - rewrite randint_empty in H by lia. discriminate.
Qed.

Lemma sample_sound (pop : list Z) (k : Z) (s s' : rng) (l : list Z) :
  sample pop k s = Ok (l, s') ->
  0 <= k <= Z.of_nat (List.length pop) /\
  Z.of_nat (List.length l) = k /\
  exists rest, Permutation (l ++ rest) pop.
Proof.
  intros H.
  destruct (Z_lt_ge_dec k 0) as [Hneg|Hnn].
  { rewrite sample_bad in H by (now left). discriminate. }
  destruct (Z_lt_ge_dec (Z.of_nat (List.length pop)) k) as [Hbig|Hfit].
  { rewrite sample_bad in H by (now right). discriminate. }
  destruct (sample_ok pop k s) as [l0 [s0 [E [Hlen Hperm]]]]; [lia|].
  rewrite E in H. inversion H; subst. repeat split; auto; lia.
Qed.

(** A sample of the label range: distinct ids, all in 1..N, as many as asked. *)
Lemma sample_labels (N k : Z) (s s' : rng) (ids : list Z) :
  sample (range 1 (N + 1)) k s = Ok (ids, s') ->
  NoDup ids /\ (forall x, In x ids -> 1 <= x <= N) /\
  Z.of_nat (List.length ids) = k.
Proof.
  intros H. apply sample_sound in H. destruct H as [_ [Hlen [rest Hperm]]].
  repeat split; auto.
  - eapply Permutation_prefix_NoDup; eauto using range_NoDup.
  - apply (Permutation_prefix_incl _ _ _ Hperm) in H.
    apply range_In in H. lia.
  - apply (Permutation_prefix_incl _ _ _ Hperm) in H.
    apply range_In in H. lia.
Qed.

End Generator.

(** ** The two transforms *)

Section Transforms.
Context {R : Runtime}.

Lemma get_params_no_labels_V1 (self : transform) (params : Params) (s : rng) :
  snd (label (mask params)) = 0 ->
  MaskDropout.get_params_dependent_on_targets self params s
  = Ok (update params None, s).
Proof.
  intros H. unfold MaskDropout.get_params_dependent_on_targets.
  destruct (label (mask params)) as [li n]. simpl in H. subst n. reflexivity.
Qed.

Lemma get_params_no_labels_V2 (self : transform) (params : Params) (s : rng) :
  snd (label (mask params)) = 0 ->
  MaskDropoutV2.get_params_dependent_on_targets self params s
  = Ok (update params None, s).
Proof.
  intros H. unfold MaskDropoutV2.get_params_dependent_on_targets.
  destruct (label (mask params)) as [li n]. simpl in H. subst n. reflexivity.
Qed.

(** The subclass repeats the two fill methods of its parent word for word. *)
Lemma apply_V2_eq : MaskDropoutV2.apply = MaskDropout.apply.
Proof. reflexivity. Qed.

Lemma apply_to_mask_V2_eq : MaskDropoutV2.apply_to_mask = MaskDropout.apply_to_mask.
Proof. reflexivity. Qed.

(** C3: when labeling finds no component, the generator is not consulted,
    the dropout mask is absent, and [apply] and [apply_to_mask] of both
    transforms hand back the image and the mask they were given. *)
Theorem no_labels_is_identity (self : transform) (params : Params)
    (img : Image) (s : rng) :
  snd (label (mask params)) = 0 ->
  (MaskDropout.get_params_dependent_on_targets self params s
     = Ok (update params None, s) /\
   MaskDropout.apply self img (dropout_mask (update params None)) = Ok img /\
   MaskDropout.apply_to_mask self (mask params)
     (dropout_mask (update params None)) = Ok (mask params)) /\
  (MaskDropoutV2.get_params_dependent_on_targets self params s
     = Ok (update params None, s) /\
   MaskDropoutV2.apply self img (dropout_mask (update params None)) = Ok img /\
   MaskDropoutV2.apply_to_mask self (mask params)
     (dropout_mask (update params None)) = Ok (mask params)).
Proof.
  intros HN. split.
  - rewrite get_params_no_labels_V1 by assumption. repeat split.
  - rewrite get_params_no_labels_V2 by assumption. repeat split.
Qed.

(** C9: a run is a function of the generator state and of the mask: two runs
    that start from the same state on the same mask draw the same count and
    the same label ids, build the same dropout mask and leave the generator
    in the same state. *)
Theorem same_seed_same_selection (self : transform) (params1 params2 : Params)
    (s1 s2 : rng) :
  s1 = s2 -> mask params1 = mask params2 ->
  (MaskDropout.draw self (mask params1) (fst (label (mask params1)))
       (snd (label (mask params1))) s1
   = MaskDropout.draw self (mask params2) (fst (label (mask params2)))
       (snd (label (mask params2))) s2 /\
   MaskDropout.get_params_dependent_on_targets self params1 s1
   = MaskDropout.get_params_dependent_on_targets self params2 s2) /\
  (MaskDropoutV2.draw self (mask params1) (fst (label (mask params1)))
       (snd (label (mask params1))) s1
   = MaskDropoutV2.draw self (mask params2) (fst (label (mask params2)))
       (snd (label (mask params2))) s2 /\
   MaskDropoutV2.get_params_dependent_on_targets self params1 s1
   = MaskDropoutV2.get_params_dependent_on_targets self params2 s2).
Proof.
  intros -> Hm.
  unfold MaskDropout.get_params_dependent_on_targets,
    MaskDropoutV2.get_params_dependent_on_targets, update.
  rewrite Hm. repeat split.
Qed.

(** C10: whatever [always_apply] and [p] are given to
    [MaskDropoutV2.__init__], a transform it returns has the base-class
    defaults, always_apply = False and p = 0.5: the two arguments go to the
    parent's [max_objects] and [image_fill_value], which are overwritten.
    The constructor returns whenever the parent's [to_tuple] call on the
    forwarded flag does. *)
Theorem V2_init_ignores_always_apply_and_p (max_objects0 : num * num)
    (image_fill_value0 : fill_value) (mask_fill_value0 : num)
    (always_apply0 : bool) (p0 : Q) :
  let defaults :=
    mk_transform (DualTransform.mk false (1 # 2))
      max_objects0 image_fill_value0 mask_fill_value0 in
  (forall t,
     MaskDropoutV2.__init__ max_objects0 image_fill_value0 mask_fill_value0
       always_apply0 p0 = Ok t ->
     t = defaults /\
     DualTransform.always_apply (base t) = false /\
     DualTransform.p (base t) = 1 # 2) /\
  (forall pr,
     to_tuple (Scalar (PyBool always_apply0)) (PyInt 1) = Ok pr ->
     MaskDropoutV2.__init__ max_objects0 image_fill_value0 mask_fill_value0
       always_apply0 p0 = Ok defaults).
Proof.
  unfold MaskDropoutV2.__init__, MaskDropout.__init__. simpl. split.
  - intros t H.
    destruct (to_tuple (Scalar (PyBool always_apply0)) (PyInt 1)); [|discriminate].
    inversion H; subst. repeat split.
  - intros pr ->. reflexivity.
Qed.

(** With the fill "inpaint", [apply] is one call of [cv2.inpaint]. *)
Lemma apply_inpaint (self : transform) (img : Image) (dm : BoolMask) :
  fill_is (image_fill_value self) "inpaint" = true ->
  MaskDropout.apply self img (Some dm)
  = let '(_, _, w, h) := boundingRect (astype_uint8 dm) in
    inpaint img (astype_uint8 dm) (Z.min 3 (Z.max w h / 2)) INPAINT_NS.
Proof. intros H. unfold MaskDropout.apply. now rewrite H. Qed.

(** C8: the radius handed to [cv2.inpaint] is min(3, max(w, h) // 2) for the
    width w and height h that [cv2.boundingRect] reports for the dropout
    mask; a box of 10 by 2 gives 3. *)
Theorem inpaint_radius (self : transform) (img : Image) (dm : BoolMask)
    (x y w h : Z) :
  fill_is (image_fill_value self) "inpaint" = true ->
  boundingRect (astype_uint8 dm) = (x, y, w, h) ->
  MaskDropout.apply self img (Some dm)
    = inpaint img (astype_uint8 dm) (Z.min 3 (Z.max w h / 2)) INPAINT_NS /\
  MaskDropoutV2.apply self img (Some dm)
    = inpaint img (astype_uint8 dm) (Z.min 3 (Z.max w h / 2)) INPAINT_NS /\
  ((w = 10 /\ h = 2) \/ (w = 2 /\ h = 10) ->
   Z.min 3 (Z.max w h / 2) = 3 /\
   MaskDropout.apply self img (Some dm)
     = inpaint img (astype_uint8 dm) 3 INPAINT_NS).
Proof.
  intros Hfill Hbox.
  assert (E : MaskDropout.apply self img (Some dm)
              = inpaint img (astype_uint8 dm) (Z.min 3 (Z.max w h / 2)) INPAINT_NS).
  { rewrite apply_inpaint by assumption. now rewrite Hbox. }
  rewrite apply_V2_eq. repeat split; auto.
  - destruct H as [[-> ->]|[-> ->]]; reflexivity.
  - rewrite E. destruct H as [[-> ->]|[-> ->]]; reflexivity.
Qed.

(** C5, as the code has it: [apply] makes no check of the channel count.
    With the fill "inpaint" an image of any channel count is handed to
    [cv2.inpaint] with the mask cast to uint8 and the radius: [apply] raises
    exactly the error that call raises and returns exactly the image it
    returns, a fresh array. *)
Theorem inpaint_delegates_channel_check (self : transform) (img : Image)
    (dm : BoolMask) (channels : nat) :
  fill_is (image_fill_value self) "inpaint" = true ->
  Forall (fun px => List.length px = channels) (data img) ->
  channels <> 3%nat ->
  MaskDropout.apply self img (Some dm)
  = inpaint img (astype_uint8 dm)
      (let '(_, _, w, h) := boundingRect (astype_uint8 dm) in
       Z.min 3 (Z.max w h / 2))
      INPAINT_NS.
Proof.
  intros Hfill _ _. rewrite apply_inpaint by assumption.
  now destruct (boundingRect (astype_uint8 dm)) as [[[x y] w] h].
Qed.

(** The dropout mask of a call has the shape of the mask it was drawn from. *)
Lemma draw_shape_V1 (self : transform) (m : Mask) (li : ndarray Z) (N : Z)
    (s s' : rng) (d : drawn) :
  MaskDropout.draw self m li N s = Ok (d, s') -> shape (drawn_mask d) = shape m.
Proof.
  unfold MaskDropout.draw, bind, ret.
  destruct (randint _ _ s) as [[k s1]|e]; [|discriminate].
  destruct (Z.min N k =? N).
  - intros H; inversion H; subst; reflexivity.
  - destruct (sample _ _ s1) as [[ids s2]|e]; [|discriminate].
    intros H; inversion H; subst; simpl. now rewrite or_labels_shape.
Qed.

Lemma draw_shape_V2 (self : transform) (m : Mask) (li : ndarray Z) (N : Z)
    (s s' : rng) (d : drawn) :
  MaskDropoutV2.draw self m li N s = Ok (d, s') -> shape (drawn_mask d) = shape m.
Proof.
  unfold MaskDropoutV2.draw, bind, ret.
  destruct (randint _ _ s) as [[k s1]|e]; [|discriminate].
  destruct (sample _ _ s1) as [[ids s2]|e]; [|discriminate].
  intros H; inversion H; subst; simpl. now rewrite or_labels_shape.
Qed.

Lemma get_params_shape_V1 (self : transform) (params params' : Params)
    (s s' : rng) (dm : BoolMask) :
  MaskDropout.get_params_dependent_on_targets self params s = Ok (params', s') ->
  dropout_mask params' = Some dm ->
  mask params' = mask params /\ shape dm = shape (mask params).
Proof.
  unfold MaskDropout.get_params_dependent_on_targets.
  destruct (label (mask params)) as [li N]. unfold bind at 1.
  destruct (N =? 0).
  - intros H; inversion H; subst. discriminate.
  - unfold bind at 1.
    destruct (MaskDropout.draw self (mask params) li N s) as [[d s1]|e] eqn:E;
      [|discriminate].
    intros H; inversion H; subst; simpl. intros Hd; inversion Hd; subst.
    split; [reflexivity|]. eapply draw_shape_V1; eauto.
Qed.

Lemma get_params_shape_V2 (self : transform) (params params' : Params)
    (s s' : rng) (dm : BoolMask) :
  MaskDropoutV2.get_params_dependent_on_targets self params s = Ok (params', s') ->
  dropout_mask params' = Some dm ->
  mask params' = mask params /\ shape dm = shape (mask params).
Proof.
  unfold MaskDropoutV2.get_params_dependent_on_targets.
  destruct (label (mask params)) as [li N]. unfold bind at 1.
  destruct (N =? 0).
  - intros H; inversion H; subst. discriminate.
  - unfold bind at 1.
    destruct (MaskDropoutV2.draw self (mask params) li N s) as [[d s1]|e] eqn:E;
      [|discriminate].
    intros H; inversion H; subst; simpl. intros Hd; inversion Hd; subst.
    split; [reflexivity|]. eapply draw_shape_V2; eauto.
Qed.

(** A constant fill through one dropout mask of the shape of both arrays:
    both calls return, and position by position the image and the mask are
    filled together or kept together. *)
Lemma fill_both (self : transform) (img : Image) (m : Mask) (dm : BoolMask)
    (ci cm : Z) :
  shape dm = shape img -> shape dm = shape m ->
  fill_is (image_fill_value self) "inpaint" = false ->
  setitem_cast (image_fill_value self) = Ok ci ->
  setitem_cast (Num (mask_fill_value self)) = Ok cm ->
  exists img' m',
    MaskDropout.apply self img (Some dm) = Ok img' /\
    MaskDropout.apply_to_mask self m (Some dm) = Ok m' /\
    shape img' = shape img /\ shape m' = shape m /\
    forall i px v,
      nth_error (data img) i = Some px ->
      nth_error (data m) i = Some v ->
      if nth i (data dm) false
      then nth_error (data img') i = Some (write_pixel ci px) /\
           nth_error (data m') i = Some cm
      else nth_error (data img') i = Some px /\
           nth_error (data m') i = Some v.
Proof.
  intros Hsi Hsm Hfill Hci Hcm.
  unfold MaskDropout.apply, MaskDropout.apply_to_mask, setitem.
  rewrite Hfill, Hci, Hcm.
  apply shape_eqb_true in Hsi. apply shape_eqb_true in Hsm.
  rewrite Hsi, Hsm. eexists; eexists.
  split; [reflexivity|]. split; [reflexivity|].
  split; [reflexivity|]. split; [reflexivity|].
  intros i px v Hpx Hv. simpl. rewrite !assign_where_nth, Hpx, Hv. simpl.
  destruct (nth i (data dm) false); split; reflexivity.
Qed.

(** C7: the dropout mask returned by one call of
    [get_params_dependent_on_targets] of either transform, used with constant
    fill values by
    [apply] on an image of the mask's shape and by [apply_to_mask] on the
    mask: both return; where the dropout mask is true the image pixel and the
    mask sample are both filled, and everywhere else both keep their input
    value. *)
Theorem fill_footprints_coincide (self : transform) (params params' : Params)
    (s s' : rng) (dm : BoolMask) (img : Image) (ci cm : Z) :
  MaskDropout.get_params_dependent_on_targets self params s = Ok (params', s') \/
  MaskDropoutV2.get_params_dependent_on_targets self params s = Ok (params', s') ->
  dropout_mask params' = Some dm ->
  shape img = shape (mask params) ->
  fill_is (image_fill_value self) "inpaint" = false ->
  setitem_cast (image_fill_value self) = Ok ci ->
  setitem_cast (Num (mask_fill_value self)) = Ok cm ->
  exists img' mask',
    MaskDropout.apply self img (dropout_mask params') = Ok img' /\
    MaskDropout.apply_to_mask self (mask params') (dropout_mask params')
      = Ok mask' /\
    shape img' = shape img /\ shape mask' = shape (mask params) /\
    forall i px v,
      nth_error (data img) i = Some px ->
      nth_error (data (mask params)) i = Some v ->
      if nth i (data dm) false
      then nth_error (data img') i = Some (write_pixel ci px) /\
           nth_error (data mask') i = Some cm
      else nth_error (data img') i = Some px /\
           nth_error (data mask') i = Some v.
Proof.
  intros Hget Hdm Himg Hfill Hci Hcm.
  assert (Hshape : mask params' = mask params /\ shape dm = shape (mask params)).
  { destruct Hget as [Hget|Hget];
      [eapply get_params_shape_V1 | eapply get_params_shape_V2]; eauto. }
  destruct Hshape as [Hm Hs].
  rewrite Hdm, Hm. apply fill_both; auto. congruence.
Qed.

End Transforms.

(** ** Counts and selections *)

Section Counts.
Context {R : Runtime} {L : RuntimeLaws R}.

(** The fixed-count branch, once the count is drawn. *)
Lemma draw_V1_after_randint (self : transform) (m : Mask) (li : ndarray Z)
    (N k : Z) (s s' : rng) :
  randint (fst (max_objects self)) (snd (max_objects self)) s = Ok (k, s') ->
  MaskDropout.draw self m li N s =
  if Z.min N k =? N
  then Ok (mk_drawn (Z.min N k) None (gt_scalar m 0), s')
  else (labels_index <- sample (range 1 (N + 1)) (Z.min N k) ;;
        ret (mk_drawn (Z.min N k) (Some labels_index)
               (or_labels li labels_index (zeros (shape0 m) (shape1 m))))) s'.
Proof.
  intros H. unfold MaskDropout.draw. unfold bind at 1. rewrite H.
  now destruct (Z.min N k =? N).
Qed.

(** The fixed-count policy keeps the count within the bounds clipped to N. *)
Lemma fixed_count_within_bounds (self : transform) (m : Mask) (li : ndarray Z)
    (N lo hi : Z) (s s' : rng) (d : drawn) :
  max_objects self = (PyInt lo, PyInt hi) ->
  MaskDropout.draw self m li N s = Ok (d, s') ->
  Z.min lo N <= objects_to_drop d <= Z.min hi N.
Proof.
  intros Hb. unfold MaskDropout.draw. unfold bind at 1. rewrite Hb; simpl.
  destruct (randint (PyInt lo) (PyInt hi) s) as [[k s1]|e] eqn:E; [|discriminate].
  apply randint_sound in E.
  destruct (Z.min N k =? N).
  - intros H; inversion H; subst; simpl. lia.
  - unfold bind, ret. destruct (sample _ _ s1) as [[ids s2]|e]; [|discriminate].
    intros H; inversion H; subst; simpl. lia.
Qed.




(** C2: under the fixed-count policy on a mask with N >= 1 components, a
    count k is drawn by [random.randint] from [min_objects, max_objects] and
    replaced by min(k, N); when that equals N, no sample is taken (the
    generator is left as the draw of k left it) and the dropout mask is
    [mask > 0], which on a mask of non-negative samples is true exactly at
    the non-zero pixels. *)
Theorem fixed_count_policy (self : transform) (params : Params) (s : rng)
    (lo hi : Z) :
  max_objects self = (PyInt lo, PyInt hi) -> lo <= hi ->
  1 <= snd (label (mask params)) ->
  let m := mask params in
  let N := snd (label m) in
  exists k s',
    randint (PyInt lo) (PyInt hi) s = Ok (k, s') /\ lo <= k <= hi /\
    MaskDropout.draw self m (fst (label m)) N s
    = (if Z.min N k =? N
       then Ok (mk_drawn (Z.min N k) None (gt_scalar m 0), s')
       else (labels_index <- sample (range 1 (N + 1)) (Z.min N k) ;;
             ret (mk_drawn (Z.min N k) (Some labels_index)
                    (or_labels (fst (label m)) labels_index
                       (zeros (shape0 m) (shape1 m))))) s') /\
    (Z.min N k = N ->
     MaskDropout.get_params_dependent_on_targets self params s
       = Ok (update params (Some (gt_scalar m 0)), s') /\
     (forall i, nth i (data (gt_scalar m 0)) false = (0 <? nth i (data m) 0)) /\
     ((forall v, In v (data m) -> 0 <= v) ->
      forall i, nth i (data (gt_scalar m 0)) false = true <->
                nth i (data m) 0 <> 0)).
Proof.
  intros Hb Hle HN m N.
  destruct (randint_range lo hi s Hle) as [k [s' [E Hk]]].
  exists k, s'. split; [exact E|]. split; [exact Hk|].
  assert (E' : randint (fst (max_objects self)) (snd (max_objects self)) s
               = Ok (k, s')) by (now rewrite Hb).
  split; [now apply draw_V1_after_randint|].
  intros Hclip. split; [|split].
  - unfold MaskDropout.get_params_dependent_on_targets.
    pose proof (draw_V1_after_randint self m (fst (label m)) N k s s' E') as Hd.
    subst N m. destruct (label (mask params)) as [li N] eqn:El. simpl in *.
    some_labels N.
    unfold bind at 1. unfold bind at 1. rewrite Hd.
    replace (Z.min N k =? N) with true by (symmetry; now apply Z.eqb_eq).
    reflexivity.
  - intros i. apply gt_scalar_nth.
  - intros Hnn i. rewrite gt_scalar_nth, Z.ltb_lt.
    destruct (Nat.lt_ge_cases i (List.length (data m))) as [Hi|Hi].
    + pose proof (Hnn _ (nth_In (data m) 0 Hi)). lia.
    + rewrite (nth_overflow (data m) 0 Hi). lia.
Qed.

(** C6: whenever ids are sampled, by either transform, they are distinct
    members of 1..N and exactly as many as the drawn count; the fixed-count
    transform skips the sample only when the count is N itself, and takes
    every foreground pixel.  The selection is made for every non-negative
    draw of the fixed-count policy and every draw within 0..N of the
    fraction-count policy. *)
Theorem selected_ids_subset_and_count (self : transform) (m : Mask)
    (li : ndarray Z) (N : Z) (s : rng) :
  1 <= N ->
  (forall d s', MaskDropout.draw self m li N s = Ok (d, s') ->
     match labels_index d with
     | Some ids =>
         NoDup ids /\ (forall x, In x ids -> 1 <= x <= N) /\
         Z.of_nat (List.length ids) = objects_to_drop d
     | None => objects_to_drop d = N /\ drawn_mask d = gt_scalar m 0
     end) /\
  (forall d s', MaskDropoutV2.draw self m li N s = Ok (d, s') ->
     exists ids,
       labels_index d = Some ids /\
       NoDup ids /\ (forall x, In x ids -> 1 <= x <= N) /\
       Z.of_nat (List.length ids) = objects_to_drop d) /\
  (forall k s1,
     randint (fst (max_objects self)) (snd (max_objects self)) s = Ok (k, s1) ->
     0 <= k ->
     exists d s', MaskDropout.draw self m li N s = Ok (d, s') /\
                  objects_to_drop d = Z.min N k) /\
  (forall k s1,
     randint (PyInt (int (int_mul N (fst (max_objects self)))))
             (PyInt (int (int_mul N (snd (max_objects self))))) s = Ok (k, s1) ->
     0 <= k <= N ->
     exists d s', MaskDropoutV2.draw self m li N s = Ok (d, s') /\
                  objects_to_drop d = k).
Proof.
  intros HN. split; [|split; [|split]].
  - intros d s'. unfold MaskDropout.draw. unfold bind at 1.
    destruct (randint _ _ s) as [[k s1]|e]; [|discriminate].
    destruct (Z.min N k =? N) eqn:Ek.
    + intros H; inversion H; subst; simpl. apply Z.eqb_eq in Ek. now split.
    + unfold bind, ret.
      destruct (sample _ _ s1) as [[ids s2]|e] eqn:Es; [|discriminate].
      intros H; inversion H; subst; simpl. now apply sample_labels in Es.
  - intros d s'. unfold MaskDropoutV2.draw, bind, ret.
    destruct (randint _ _ s) as [[k s1]|e]; [|discriminate].
    destruct (sample _ _ s1) as [[ids s2]|e] eqn:Es; [|discriminate].
    intros H; inversion H; subst; simpl. exists ids.
    split; [reflexivity|]. now apply sample_labels in Es.
  - intros k s1 E Hk. rewrite (draw_V1_after_randint _ _ _ _ _ _ _ E).
    destruct (Z.min N k =? N); [eexists; eexists; split; reflexivity|].
    destruct (sample_ok (range 1 (N + 1)) (Z.min N k) s1) as [ids [s2 [E2 _]]].
    { rewrite range_length. lia. }
    unfold bind, ret. rewrite E2. eexists; eexists; split; reflexivity.
  - intros k s1 E Hk. unfold MaskDropoutV2.draw, bind, ret. rewrite E.
    destruct (sample_ok (range 1 (N + 1)) k s1) as [ids [s2 [E2 _]]].
    { rewrite range_length. lia. }
    rewrite E2. eexists; eexists; split; reflexivity.
Qed.

(** C1, where the code departs from it: [MaskDropoutV2] does not clip the
    drawn count.  When [random.randint] returns a count above the number N
    of labels, [random.sample] is asked for more ids than there are and the
    call ends in ValueError; with both scaled bounds above N every call does. *)
Theorem fraction_count_not_clipped (self : transform) (params : Params)
    (s : rng) :
  let N := snd (label (mask params)) in
  let lo := int (int_mul N (fst (max_objects self))) in
  let hi := int (int_mul N (snd (max_objects self))) in
  1 <= N ->
  (forall k s1,
     randint (PyInt lo) (PyInt hi) s = Ok (k, s1) -> N < k ->
     sample (range 1 (N + 1)) k s1 = Raise ValueError /\
     MaskDropoutV2.get_params_dependent_on_targets self params s
       = Raise ValueError) /\
  (N < lo <= hi ->
   MaskDropoutV2.get_params_dependent_on_targets self params s
     = Raise ValueError).
Proof.
  intros N lo hi HN.
  assert (Hdraw : forall k s1,
             randint (PyInt lo) (PyInt hi) s = Ok (k, s1) -> N < k ->
             sample (range 1 (N + 1)) k s1 = Raise ValueError /\
             MaskDropoutV2.get_params_dependent_on_targets self params s
               = Raise ValueError).
  { intros k s1 E Hk.
    assert (Es : sample (range 1 (N + 1)) k s1 = Raise ValueError).
    { apply sample_bad. right. rewrite range_length. lia. }
    split; [exact Es|].
    unfold MaskDropoutV2.get_params_dependent_on_targets. subst lo hi N.
    destruct (label (mask params)) as [li N]. cbn [snd] in *.
    some_labels N.
    unfold MaskDropoutV2.draw, bind, ret. now rewrite E, Es. }
  split; [exact Hdraw|].
  intros [Hlo Hhi].
  destruct (randint_range lo hi s Hhi) as [k [s1 [E Hk]]].
  apply (Hdraw k s1 E). lia.
Qed.

(** C4, as the code has it: the constructors check nothing.
    [MaskDropoutV2.__init__] stores the pair it is given, whatever it is, and
    whether it returns does not depend on the pair; [MaskDropout.__init__]
    returns what [to_tuple] returns.  Bounds with min > max are reported
    when a mask with N >= 1 is augmented, as the ValueError of
    [random.randint]. *)
Theorem bounds_checked_only_by_randint :
  (forall mo mo' ifv mfv aa p,
     match MaskDropoutV2.__init__ mo ifv mfv aa p with
     | Ok t => max_objects t = mo /\
               exists t', MaskDropoutV2.__init__ mo' ifv mfv aa p = Ok t'
     | Raise e => MaskDropoutV2.__init__ mo' ifv mfv aa p = Raise e
     end) /\
  (forall b ifv mfv aa p,
     MaskDropout.__init__ b ifv mfv aa p =
     match to_tuple b (PyInt 1) with
     | Ok pr => Ok (mk_transform (DualTransform.mk aa p) pr ifv mfv)
     | Raise e => Raise e
     end) /\
  (forall self params s lo hi,
     max_objects self = (PyInt lo, PyInt hi) -> hi < lo ->
     1 <= snd (label (mask params)) ->
     MaskDropout.get_params_dependent_on_targets self params s
       = Raise ValueError) /\
  (forall self params s,
     let N := snd (label (mask params)) in
     int (int_mul N (snd (max_objects self)))
       < int (int_mul N (fst (max_objects self))) ->
     1 <= N ->
     MaskDropoutV2.get_params_dependent_on_targets self params s
       = Raise ValueError).
Proof.
  split; [|split; [|split]].
  - intros. unfold MaskDropoutV2.__init__, MaskDropout.__init__.
    destruct (to_tuple (Scalar (PyBool aa)) (PyInt 1)); simpl; eauto.
  - reflexivity.
  - intros self params s lo hi Hb Hlt HN.
    unfold MaskDropout.get_params_dependent_on_targets.
    destruct (label (mask params)) as [li N]. simpl in *.
    some_labels N.
    unfold MaskDropout.draw, bind. rewrite Hb; simpl.
    now rewrite randint_empty.
  - intros self params s N Hlt HN.
    unfold MaskDropoutV2.get_params_dependent_on_targets. subst N.
    destruct (label (mask params)) as [li N]. simpl in *.
    some_labels N.
    unfold MaskDropoutV2.draw, bind. now rewrite randint_empty.
Qed.

End Counts.

(** ** The reference runtime meets the contracts *)

Module RefLaws.

Lemma remove_nth_length {A} (j : nat) (l : list A) :
  (j < List.length l)%nat ->
  List.length (Ref.remove_nth j l) = pred (List.length l).
Proof.
  revert j. induction l as [|x l IH]; intros j Hj; simpl in *; [lia|].
  destruct j as [|j]; simpl; [reflexivity|].
  rewrite IH by lia. destruct l; simpl in *; lia.
Qed.

Lemma remove_nth_perm {A} (d : A) (j : nat) (l : list A) :
  (j < List.length l)%nat ->
  Permutation (nth j l d :: Ref.remove_nth j l) l.
Proof.
  revert j. induction l as [|x l IH]; intros j Hj; simpl in *; [lia|].
  destruct j as [|j]; [reflexivity|].
  etransitivity; [apply perm_swap|]. apply perm_skip, IH. lia.
Qed.

Lemma pick_spec (k : nat) : forall (pool : list Z) (s : Ref.tape),
  (k <= List.length pool)%nat ->
  List.length (fst (Ref.pick k pool s)) = k /\
  exists rest, Permutation (fst (Ref.pick k pool s) ++ rest) pool.
Proof.
  induction k as [|k IH]; intros pool s Hk; simpl.
  - split; [reflexivity|]. exists pool. reflexivity.
  - destruct (Ref.next s) as [r s1].
    set (j := Z.to_nat (r mod Z.of_nat (List.length pool))).
    assert (Hj : (j < List.length pool)%nat).
    { subst j.
      pose proof (Z.mod_pos_bound r (Z.of_nat (List.length pool)) ltac:(lia)).
      lia. }
    specialize (IH (Ref.remove_nth j pool) s1).
    rewrite remove_nth_length in IH by assumption.
    destruct IH as [Hlen [rest Hperm]]; [lia|].
    destruct (Ref.pick k (Ref.remove_nth j pool) s1) as [l s2]. simpl in *.
    split; [now rewrite Hlen|]. exists rest.
    etransitivity; [apply perm_skip, Hperm|]. now apply remove_nth_perm.
Qed.

#[export] Instance laws : RuntimeLaws Ref.runtime.
Proof.
  constructor; simpl.
  - intros a b s Hab. unfold Ref.randint; simpl.
    replace (b <? a) with false by (symmetry; apply Z.ltb_ge; lia).
    destruct (Ref.next s) as [r s1]. exists (a + r mod (b - a + 1)), s1.
    split; [reflexivity|].
    pose proof (Z.mod_pos_bound r (b - a + 1) ltac:(lia)). lia.
  - intros a b s Hab. unfold Ref.randint; simpl.
    now replace (b <? a) with true by (symmetry; apply Z.ltb_lt; lia).
  - intros pop k s Hk. unfold Ref.sample.
    replace (k <? 0) with false by (symmetry; apply Z.ltb_ge; lia).
    replace (Z.of_nat (List.length pop) <? k) with false
      by (symmetry; apply Z.ltb_ge; lia).
    simpl. destruct (pick_spec (Z.to_nat k) pop s ltac:(lia)) as [Hlen Hperm].
    destruct (Ref.pick (Z.to_nat k) pop s) as [l s1]. simpl in *.
    exists l, s1. split; [reflexivity|]. split; [lia|exact Hperm].
  - intros pop k s [Hk|Hk]; unfold Ref.sample.
    + now replace (k <? 0) with true by (symmetry; apply Z.ltb_lt; lia).
    + replace (Z.of_nat (List.length pop) <? k) with true
        by (symmetry; apply Z.ltb_lt; lia).
      now rewrite orb_true_r.
Defined.

End RefLaws.

(** ** The theorems on concrete inputs *)

Section Concrete.
Import Examples.

(** One component: fractions (0.0, 2.0) and a draw of 2, or fractions
    (2.0, 2.0) and any draw, end in ValueError. *)
Lemma fraction_count_not_clipped_witness :
  @MaskDropoutV2.get_params_dependent_on_targets Ref.runtime twice_over
    (mk_params one_pixel None) [2] = Raise ValueError /\
  @MaskDropoutV2.get_params_dependent_on_targets Ref.runtime
    (configured (PyFloat 2, PyFloat 2) (Num (PyInt 0)))
    (mk_params one_pixel None) [] = Raise ValueError.
Proof.
  split.
  - destruct (@fraction_count_not_clipped Ref.runtime RefLaws.laws twice_over
                (mk_params one_pixel None) [2]) as [H _].
    + vm_compute. discriminate.
    + apply (H 2 []); [reflexivity | vm_compute; reflexivity].
  - destruct (@fraction_count_not_clipped Ref.runtime RefLaws.laws
                (configured (PyFloat 2, PyFloat 2) (Num (PyInt 0)))
                (mk_params one_pixel None) []) as [_ H].
    + vm_compute. discriminate.
    + apply H. vm_compute. split; [reflexivity | discriminate].
Defined.

(** Two components, bounds (1, 3), a draw of 2: every foreground pixel. *)
Lemma fixed_count_policy_witness :
  @MaskDropout.get_params_dependent_on_targets Ref.runtime drop_up_to_three
    (mk_params two_blobs None) [1]
  = Ok (mk_params two_blobs (Some (gt_scalar two_blobs 0)), []).
Proof.
  destruct (@fixed_count_policy Ref.runtime RefLaws.laws drop_up_to_three
              (mk_params two_blobs None) [1] 1 3)
    as [k [s' [E [_ [_ Hall]]]]].
  - reflexivity.
  - vm_compute. discriminate.
  - vm_compute. discriminate.
  - vm_compute in E. inversion E; subst k s'.
    destruct Hall as [Hget _]; [reflexivity | exact Hget].
Defined.

Lemma no_labels_is_identity_witness :
  @MaskDropout.get_params_dependent_on_targets Ref.runtime drop_one (mk_params background None) [7]
    = Ok (mk_params background None, [7]) /\
  @MaskDropout.apply Ref.runtime drop_one gray None = Ok gray.
Proof.
  destruct (@no_labels_is_identity Ref.runtime drop_one
              (mk_params background None) gray [7])
    as [[Hget [Happly _]] _].
  - reflexivity.
  - split; [exact Hget | exact Happly].
Defined.

(** Bounds (3, 1) are only met by [random.randint]. *)
Lemma bounds_checked_only_by_randint_witness :
  @MaskDropout.get_params_dependent_on_targets Ref.runtime reversed (mk_params two_blobs None) [1] = Raise ValueError.
Proof.
  destruct (@bounds_checked_only_by_randint Ref.runtime RefLaws.laws)
    as [_ [_ [H _]]].
  apply (H reversed (mk_params two_blobs None) [1] 3 1).
  - reflexivity.
  - vm_compute. reflexivity.
  - vm_compute. discriminate.
Defined.

(** The constructors return on reversed, negative and oversized bounds. *)
Lemma constructors_accept_invalid_bounds :
  @MaskDropoutV2.__init__ Ref.runtime (PyFloat (9 # 10), PyFloat (1 # 10))
      (Num (PyInt 0)) (PyInt 0) false (1 # 2)
    = Ok (configured (PyFloat (9 # 10), PyFloat (1 # 10)) (Num (PyInt 0))) /\
  @MaskDropoutV2.__init__ Ref.runtime (PyFloat (-1 # 2), PyFloat (3 # 2))
      (Num (PyInt 0)) (PyInt 0) false (1 # 2)
    = Ok (configured (PyFloat (-1 # 2), PyFloat (3 # 2)) (Num (PyInt 0))) /\
  @MaskDropout.__init__ Ref.runtime (Tuple (PyInt 3) (PyInt 1))
      (Num (PyInt 0)) (PyInt 0) false (1 # 2)
    = Ok reversed /\
  @MaskDropout.__init__ Ref.runtime (Tuple (PyInt (-4)) (PyInt (-2)))
      (Num (PyInt 0)) (PyInt 0) false (1 # 2)
    = Ok (configured (PyInt (-4), PyInt (-2)) (Num (PyInt 0))).
Proof. repeat split. Qed.

Lemma inpaint_delegates_channel_check_witness :
  @MaskDropout.apply Ref.runtime inpainting gray (Some gray_dropout)
  = Ref.inpaint gray (astype_uint8 gray_dropout) 0 INPAINT_NS.
Proof.
  apply (@inpaint_delegates_channel_check Ref.runtime inpainting gray
           gray_dropout 1%nat).
  - reflexivity.
  - repeat constructor.
  - discriminate.
Defined.

(** Inpainting a 1-channel image returns an image; nothing is raised. *)
Lemma inpaint_accepts_one_channel :
  Forall (fun px => List.length px = 1%nat) (data gray) /\
  fill_is (image_fill_value inpainting) "inpaint" = true /\
  @MaskDropout.apply Ref.runtime inpainting gray (Some gray_dropout)
    = Ok (mk_ndarray 2 2 [[10]; [10]; [30]; [40]]) /\
  forall e,
    @MaskDropout.apply Ref.runtime inpainting gray (Some gray_dropout)
      <> Raise e.
Proof.
  split; [repeat constructor|]. split; [reflexivity|].
  split; [reflexivity|]. intros e H. vm_compute in H. discriminate.
Qed.

Lemma selected_ids_subset_and_count_witness :
  exists d s',
    @MaskDropout.draw Ref.runtime drop_up_to_three two_blobs
      (fst (Ref.label two_blobs)) 2 [0; 1] = Ok (d, s') /\
    objects_to_drop d = 1.
Proof.
  destruct (@selected_ids_subset_and_count Ref.runtime RefLaws.laws
              drop_up_to_three two_blobs (fst (Ref.label two_blobs)) 2 [0; 1])
    as [_ [_ [H _]]].
  - lia.
  - destruct (H 1 [1]) as [d [s' [E Hd]]].
    + reflexivity.
    + lia.
    + exists d, s'. split; [exact E | exact Hd].
Defined.

Lemma fill_footprints_coincide_witness :
  exists img' mask',
    @MaskDropout.apply Ref.runtime drop_one rgb
      (Some second_blob)
      = Ok img' /\
    nth_error (data img') 18 = Some [0; 0; 0] /\
    nth_error (data img') 0 = Some [0; 100; 200] /\
    @MaskDropout.apply_to_mask Ref.runtime drop_one two_blobs
      (Some second_blob)
      = Ok mask' /\
    nth_error (data mask') 18 = Some 0 /\
    nth_error (data mask') 0 = Some 1.
Proof.
  destruct (@fill_footprints_coincide Ref.runtime drop_one
              (mk_params two_blobs None)
              (mk_params two_blobs
                 (Some second_blob))
              [0; 1] [] _ rgb 0 0
              (or_introl eq_refl) eq_refl eq_refl eq_refl eq_refl eq_refl)
    as [img' [mask' [Ha [Hm [_ [_ Hpos]]]]]].
  exists img', mask'.
  pose proof (Hpos 18%nat [18; 118; 200] 2 eq_refl eq_refl) as H18.
  pose proof (Hpos 0%nat [0; 100; 200] 1 eq_refl eq_refl) as H0.
  simpl in H18, H0. destruct H18 as [Hi18 Hm18]. destruct H0 as [Hi0 Hm0].
  repeat split; assumption.
Defined.

(** Scenario A: one of two blobs is dropped, from the image and the mask. *)
Example scenario_A :
  @MaskDropout.get_params_dependent_on_targets Ref.runtime drop_one
    (mk_params two_blobs None) [0; 1]
    = Ok (mk_params two_blobs (Some second_blob), []) /\
  @MaskDropout.apply_to_mask Ref.runtime drop_one two_blobs (Some second_blob)
    = Ok (mk_ndarray 5 5
            [1; 1; 0; 0; 0;
             1; 1; 0; 0; 0;
             0; 0; 0; 0; 0;
             0; 0; 0; 0; 0;
             0; 0; 0; 0; 0]).
Proof. split; reflexivity. Qed.

(** Scenario C: ten labels and fractions (0.2, 0.5) give counts from 2 to 5. *)
Example scenario_C :
  int (int_mul 10 (PyFloat (1 # 5))) = 2 /\
  int (int_mul 10 (PyFloat (1 # 2))) = 5.
Proof. split; reflexivity. Qed.

Lemma inpaint_radius_witness :
  Ref.boundingRect (astype_uint8 strip) = (1, 0, 10, 2) /\
  @MaskDropout.apply Ref.runtime inpainting wide (Some strip)
    = Ref.inpaint wide (astype_uint8 strip) 3 INPAINT_NS.
Proof.
  split; [reflexivity|].
  destruct (@inpaint_radius Ref.runtime inpainting wide strip 1 0 10 2)
    as [_ [_ H]].
  - reflexivity.
  - reflexivity.
  - apply H. left. split; reflexivity.
Defined.

Lemma same_seed_same_selection_witness :
  @MaskDropout.get_params_dependent_on_targets Ref.runtime drop_one (mk_params two_blobs None) [0; 1]
  = @MaskDropout.get_params_dependent_on_targets Ref.runtime drop_one (mk_params two_blobs (Some strip)) [0; 1].
Proof.
  apply (@same_seed_same_selection Ref.runtime drop_one
           (mk_params two_blobs None) (mk_params two_blobs (Some strip))
           [0; 1] [0; 1]); reflexivity.
Defined.

Lemma V2_init_ignores_always_apply_and_p_witness :
  @MaskDropoutV2.__init__ Ref.runtime (PyFloat (1 # 5), PyFloat (1 # 2))
    (Num (PyInt 0)) (PyInt 0) true (9 # 10)
  = Ok (configured (PyFloat (1 # 5), PyFloat (1 # 2)) (Num (PyInt 0))).
Proof.
  destruct (@V2_init_ignores_always_apply_and_p Ref.runtime
              (PyFloat (1 # 5), PyFloat (1 # 2)) (Num (PyInt 0)) (PyInt 0)
              true (9 # 10)) as [_ H].
  apply (H (PyBool true, PyInt 1)). reflexivity.
Defined.

End Concrete.

(** * Further properties *)

(** ** Rolling a buffer *)

Lemma roll_offset_lt (shift : Z) (n : nat) :
  (0 < n)%nat -> (roll_offset shift n < n)%nat.
Proof.
  intros Hn. unfold roll_offset.
  replace (Nat.max n 1) with n by lia.
  pose proof (Z.mod_pos_bound shift (Z.of_nat n) ltac:(lia)). lia.
Qed.

Lemma roll_slices_length {A} (off n w : nat) (l : list A) :
  List.length (roll_slices off n w l) = List.length l.
Proof.
  unfold roll_slices. destruct (off =? 0)%nat; [reflexivity|].
  rewrite length_app, length_skipn, length_firstn. lia.
Qed.

Lemma roll_slices_perm {A} (off n w : nat) (l : list A) :
  Permutation (roll_slices off n w l) l.
Proof.
  unfold roll_slices. destruct (off =? 0)%nat; [reflexivity|].
  etransitivity; [apply Permutation_app_comm|]. now rewrite firstn_skipn.
Qed.

Lemma map_rows_length {A} (f : list A -> list A) (h w : nat) :
  (forall row, List.length (f row) = List.length row) ->
  forall l, List.length l = (h * w)%nat ->
            List.length (map_rows f h w l) = (h * w)%nat.
Proof.
  intros Hf. induction h as [|h IH]; intros l Hl; simpl; [reflexivity|].
  rewrite length_app, Hf, length_firstn, IH.
  - simpl in Hl. lia.
  - rewrite length_skipn. simpl in Hl. lia.
Qed.

Lemma map_rows_perm {A} (f : list A -> list A) (h w : nat) :
  (forall row, Permutation (f row) row) ->
  forall l, List.length l = (h * w)%nat -> Permutation (map_rows f h w l) l.
Proof.
  intros Hf. induction h as [|h IH]; intros l Hl; simpl.
  - simpl in Hl. apply length_zero_iff_nil in Hl. now subst.
  - rewrite <- (firstn_skipn w l) at 3. apply Permutation_app; [apply Hf|].
    apply IH. rewrite length_skipn. simpl in Hl. lia.
Qed.

(** Where the slices of a roll fetch from. *)
Lemma roll_slices_nth {A} (off n w : nat) (l : list A) (r c : nat) :
  List.length l = (n * w)%nat -> (off < n)%nat -> (r < n)%nat -> (c < w)%nat ->
  nth_error (roll_slices off n w l) (r * w + c)
  = nth_error l ((r + (n - off)) mod n * w + c).
Proof.
  intros Hl Hoff Hr Hc. unfold roll_slices.
  destruct (off =? 0)%nat eqn:E.
  - apply Nat.eqb_eq in E. subst off.
    replace (r + (n - 0))%nat with (r + 1 * n)%nat by lia.
    rewrite Nat.Div0.mod_add, Nat.mod_small by lia. reflexivity.
  - apply Nat.eqb_neq in E.
    destruct (Nat.lt_ge_cases r off) as [Hlt|Hge].
    + rewrite nth_error_app1 by (rewrite length_skipn; nia).
      rewrite nth_error_skipn, Nat.mod_small by lia.
      f_equal. nia.
    + rewrite nth_error_app2 by (rewrite length_skipn; nia).
      rewrite length_skipn, nth_error_firstn.
      replace (r + (n - off))%nat with ((r - off) + 1 * n)%nat by lia.
      rewrite Nat.Div0.mod_add, Nat.mod_small by lia.
      replace (r * w + c - (List.length l - (n - off) * w))%nat
        with ((r - off) * w + c)%nat by nia.
      replace ((r - off) * w + c <? (n - off) * w)%nat with true; [reflexivity|].
      symmetry. apply Nat.ltb_lt. nia.
Qed.

Lemma map_rows_nth {A} (f : list A -> list A) (w : nat) :
  (forall row, List.length (f row) = List.length row) ->
  forall (h : nat) (l : list A) (r c : nat),
    List.length l = (h * w)%nat -> (r < h)%nat -> (c < w)%nat ->
    nth_error (map_rows f h w l) (r * w + c)
    = nth_error (f (firstn w (skipn (r * w) l))) c.
Proof.
  intros Hf. induction h as [|h IH]; intros l r c Hl Hr Hc; [lia|].
  simpl in Hl. simpl map_rows. destruct r as [|r].
  - simpl. rewrite nth_error_app1; [reflexivity|].
    rewrite Hf, length_firstn. lia.
  - rewrite nth_error_app2 by (rewrite Hf, length_firstn; simpl; nia).
    rewrite Hf, length_firstn.
    replace (S r * w + c - Nat.min w (List.length l))%nat
      with (r * w + c)%nat by (simpl; nia).
    rewrite IH by (try rewrite length_skipn; lia).
    rewrite skipn_skipn.
    now replace (r * w + w)%nat with (S r * w)%nat by (simpl; lia).
Qed.

(** The source index, in natural numbers. *)
Lemma roll_source_nat (shift : Z) (n i : nat) :
  (0 < n)%nat -> (i < n)%nat ->
  ((i + (n - roll_offset shift n)) mod n)%nat = roll_source shift n i.
Proof.
  intros Hn Hi. pose proof (roll_offset_lt shift n Hn) as Hoff.
  unfold roll_source. apply Nat2Z.inj.
  rewrite Nat2Z.inj_mod, Z2Nat.id
    by (apply Z.mod_pos_bound; lia).
  rewrite Nat2Z.inj_add, Nat2Z.inj_sub by lia.
  unfold roll_offset. replace (Nat.max n 1) with n by lia.
  rewrite Z2Nat.id by (apply Z.mod_pos_bound; lia).
  replace (Z.of_nat i + (Z.of_nat n - shift mod Z.of_nat n))
    with (Z.of_nat i - shift mod Z.of_nat n + 1 * Z.of_nat n) by lia.
  rewrite Z.mod_add by lia. now rewrite Zminus_mod_idemp_r.
Qed.

Lemma roll_source_lt (shift : Z) (n i : nat) :
  (0 < n)%nat -> (roll_source shift n i < n)%nat.
Proof.
  intros Hn. unfold roll_source.
  pose proof (Z.mod_pos_bound (Z.of_nat i - shift) (Z.of_nat n) ltac:(lia)). lia.
Qed.

(** ** [np.roll] on arrays *)

Lemma np_roll_shape {A} (a : ndarray A) (shift : Z) (ax : axis) :
  shape (np_roll a shift ax) = shape a.
Proof. now destruct ax. Qed.

Lemma np_roll_well_formed {A} (a : ndarray A) (shift : Z) (ax : axis) :
  well_formed a -> well_formed (np_roll a shift ax).
Proof.
  unfold well_formed. intros Hwf. destruct ax; simpl.
  - now rewrite roll_slices_length.
  - apply map_rows_length; [|assumption].
    intros row. apply roll_slices_length.
Qed.

Lemma np_roll_perm {A} (a : ndarray A) (shift : Z) (ax : axis) :
  well_formed a -> Permutation (data (np_roll a shift ax)) (data a).
Proof.
  unfold well_formed. intros Hwf. destruct ax; simpl.
  - apply roll_slices_perm.
  - apply map_rows_perm; [|assumption].
    intros row. apply roll_slices_perm.
Qed.

Lemma getitem_in_range {A} (a : ndarray A) (r c : nat) :
  (r < shape0 a)%nat -> (c < shape1 a)%nat ->
  getitem a r c = nth_error (data a) (r * shape1 a + c).
Proof.
  intros Hr Hc. unfold getitem.
  apply Nat.ltb_lt in Hr. apply Nat.ltb_lt in Hc. now rewrite Hr, Hc.
Qed.

Lemma np_roll_axis0_getitem {A} (a : ndarray A) (shift : Z) (r c : nat) :
  well_formed a -> (r < shape0 a)%nat -> (c < shape1 a)%nat ->
  getitem (np_roll a shift axis0) r c
  = getitem a (roll_source shift (shape0 a) r) c.
Proof.
  intros Hwf Hr Hc.
  assert (Hn : (0 < shape0 a)%nat) by lia.
  rewrite !getitem_in_range; simpl; auto using roll_source_lt.
  rewrite roll_slices_nth; auto using roll_offset_lt.
  now rewrite roll_source_nat.
Qed.

Lemma np_roll_axis1_getitem {A} (a : ndarray A) (shift : Z) (r c : nat) :
  well_formed a -> (r < shape0 a)%nat -> (c < shape1 a)%nat ->
  getitem (np_roll a shift axis1) r c
  = getitem a r (roll_source shift (shape1 a) c).
Proof.
  intros Hwf Hr Hc. unfold well_formed in Hwf.
  assert (Hn : (0 < shape1 a)%nat) by lia.
  pose proof (roll_source_lt shift (shape1 a) c Hn) as Hsrc.
  rewrite !getitem_in_range; simpl; auto.
  rewrite map_rows_nth; auto using roll_slices_length.
  set (row := firstn (shape1 a) (skipn (r * shape1 a) (data a))).
  assert (Hrow : List.length row = (shape1 a * 1)%nat).
  { subst row. rewrite length_firstn, length_skipn. nia. }
  replace c with (c * 1 + 0)%nat at 1 by lia.
  rewrite roll_slices_nth; auto using roll_offset_lt.
  rewrite roll_source_nat by assumption.
  replace (roll_source shift (shape1 a) c * 1 + 0)%nat
    with (roll_source shift (shape1 a) c) by lia.
  subst row. rewrite nth_error_firstn.
  apply Nat.ltb_lt in Hsrc. rewrite Hsrc. apply nth_error_skipn.
Qed.

(** Two well-formed arrays of one shape with the same elements are equal. *)
Lemma ndarray_ext {A} (a b : ndarray A) :
  well_formed a -> well_formed b -> shape a = shape b ->
  (forall r c, (r < shape0 a)%nat -> (c < shape1 a)%nat ->
               getitem a r c = getitem b r c) ->
  a = b.
Proof.
  destruct a as [h w la], b as [h' w' lb]. unfold well_formed, shape; simpl.
  intros Ha Hb Hs Hget. inversion Hs; subst h' w'. f_equal.
  apply nth_error_ext. intros i.
  destruct (Nat.lt_ge_cases i (h * w)) as [Hi|Hi].
  - assert (Hw : (0 < w)%nat) by nia.
    assert (Hr : (i / w < h)%nat)
      by (apply Nat.Div0.div_lt_upper_bound; lia).
    assert (Hc : (i mod w < w)%nat) by (apply Nat.mod_upper_bound; lia).
    specialize (Hget (i / w)%nat (i mod w)%nat Hr Hc).
    rewrite !getitem_in_range in Hget by assumption. simpl in Hget.
    replace (i / w * w + i mod w)%nat with i in Hget; [assumption|].
    pose proof (Nat.div_mod_eq i w). lia.
  - transitivity (@None A); [|symmetry]; apply nth_error_None; lia.
Qed.

Lemma roll_source_zero (n i : nat) : (i < n)%nat -> roll_source 0 n i = i.
Proof.
  intros Hi. unfold roll_source.
  rewrite Z.sub_0_r, Z.mod_small by lia. lia.
Qed.

Lemma roll_source_compose (s1 s2 : Z) (n i : nat) :
  (0 < n)%nat ->
  roll_source s1 n (roll_source s2 n i) = roll_source (s1 + s2) n i.
Proof.
  intros Hn. unfold roll_source. f_equal.
  rewrite Z2Nat.id by (apply Z.mod_pos_bound; lia).
  rewrite Zminus_mod_idemp_l. f_equal. lia.
Qed.

(** ** Roll *)

Lemma roll_apply_to_mask_eq {A} :
  @Roll.apply_to_mask A = @Roll.apply A.
Proof. reflexivity. Qed.

Lemma roll_apply_well_formed {A} (self : DualTransform.t) (img : ndarray A)
    (x y : Z) :
  well_formed img ->
  well_formed (Roll.apply self img x y) /\
  shape (Roll.apply self img x y) = shape img.
Proof.
  intros Hwf. unfold Roll.apply. split.
  - now do 2 apply np_roll_well_formed.
  - now rewrite !np_roll_shape.
Qed.

Lemma roll_apply_getitem {A} (self : DualTransform.t) (img : ndarray A)
    (x y : Z) (r c : nat) :
  well_formed img -> (r < shape0 img)%nat -> (c < shape1 img)%nat ->
  getitem (Roll.apply self img x y) r c
  = getitem img (roll_source y (shape0 img) r) (roll_source x (shape1 img) c).
Proof.
  intros Hwf Hr Hc. unfold Roll.apply.
  rewrite np_roll_axis1_getitem; auto using np_roll_well_formed.
  simpl shape1. rewrite np_roll_axis0_getitem; auto.
  apply roll_source_lt. lia.
Qed.

Lemma roll_apply_add {A} (self : DualTransform.t) (img : ndarray A)
    (x1 y1 x2 y2 : Z) :
  well_formed img ->
  Roll.apply self (Roll.apply self img x1 y1) x2 y2
  = Roll.apply self img (x1 + x2) (y1 + y2).
Proof.
  intros Hwf.
  destruct (roll_apply_well_formed self img x1 y1 Hwf) as [Hwf1 Hs1].
  destruct (roll_apply_well_formed self (Roll.apply self img x1 y1) x2 y2 Hwf1)
    as [Hwf2 Hs2].
  destruct (roll_apply_well_formed self img (x1 + x2) (y1 + y2) Hwf)
    as [Hwf3 Hs3].
  assert (H0 : shape0 (Roll.apply self img x1 y1) = shape0 img)
    by (now inversion Hs1).
  assert (H1 : shape1 (Roll.apply self img x1 y1) = shape1 img)
    by (now inversion Hs1).
  apply ndarray_ext; [exact Hwf2 | exact Hwf3 | congruence |].
  intros r c Hr Hc.
  assert (Hr' : (r < shape0 img)%nat) by exact Hr.
  assert (Hc' : (c < shape1 img)%nat) by exact Hc.
  rewrite roll_apply_getitem by (auto; lia).
  rewrite H0, H1.
  rewrite roll_apply_getitem by (auto using roll_source_lt; apply roll_source_lt; lia).
  rewrite roll_apply_getitem by auto.
  now rewrite !roll_source_compose by lia.
Qed.

Lemma roll_apply_zero {A} (self : DualTransform.t) (img : ndarray A) :
  well_formed img -> Roll.apply self img 0 0 = img.
Proof.
  intros Hwf.
  destruct (roll_apply_well_formed self img 0 0 Hwf) as [Hwf0 Hs0].
  apply ndarray_ext; [exact Hwf0 | exact Hwf | exact Hs0 |].
  intros r c Hr Hc.
  assert (Hr' : (r < shape0 img)%nat) by exact Hr.
  assert (Hc' : (c < shape1 img)%nat) by exact Hc.
  rewrite roll_apply_getitem by auto.
  now rewrite !roll_source_zero.
Qed.

Lemma roll_offset_period (shift k : Z) (n : nat) :
  roll_offset (shift + k * Z.of_nat n) n = roll_offset shift n.
Proof.
  unfold roll_offset. destruct n as [|n].
  - simpl. now rewrite Z.mul_0_r, Z.add_0_r.
  - replace (Nat.max (S n) 1) with (S n) by lia.
    now rewrite Z.mod_add by lia.
Qed.

Section RollTheorems.
Context {R : Runtime} {L : RuntimeLaws R}.


End RollTheorems.

(** [Roll.apply] and [Roll.apply_to_mask] move an image and a mask of one
    shape together: position (r, c) of either output holds what the input
    had at ((r - roll_y) mod H, (c - roll_x) mod W). *)
Theorem roll_moves_image_and_mask_together {A B} (self : DualTransform.t)
    (img : ndarray A) (m : ndarray B) (x y : Z) (r c : nat) :
  well_formed img -> well_formed m -> shape m = shape img ->
  (r < shape0 img)%nat -> (c < shape1 img)%nat ->
  let r0 := Z.to_nat ((Z.of_nat r - y) mod Z.of_nat (shape0 img)) in
  let c0 := Z.to_nat ((Z.of_nat c - x) mod Z.of_nat (shape1 img)) in
  getitem (Roll.apply self img x y) r c = getitem img r0 c0 /\
  getitem (Roll.apply_to_mask self m x y) r c = getitem m r0 c0 /\
  (r0 < shape0 img)%nat /\ (c0 < shape1 img)%nat.
Proof.
  intros Hwi Hwm Hs Hr Hc r0 c0. inversion Hs as [[H0 H1]].
  change (Roll.apply_to_mask self m x y) with (Roll.apply self m x y).
  rewrite (roll_apply_getitem self img) by auto.
  rewrite (roll_apply_getitem self m) by (auto; lia).
  rewrite H0, H1. repeat split; try reflexivity.
  - apply roll_source_lt. lia.
  - apply roll_source_lt. lia.
Qed.

(** [Roll.apply] loses and invents nothing: on a well-formed array the
    output has the shape of the input and its buffer is a permutation of the
    input's. *)
Theorem roll_keeps_every_pixel {A} (self : DualTransform.t) (img : ndarray A)
    (x y : Z) :
  well_formed img ->
  shape (Roll.apply self img x y) = shape img /\
  well_formed (Roll.apply self img x y) /\
  Permutation (data (Roll.apply self img x y)) (data img).
Proof.
  intros Hwf. destruct (roll_apply_well_formed self img x y Hwf) as [Hw Hs].
  repeat split; auto. unfold Roll.apply.
  etransitivity; [apply np_roll_perm; now apply np_roll_well_formed|].
  now apply np_roll_perm.
Qed.

(** Rolls compose by adding their shifts; a roll by the negated shifts
    undoes a roll. *)
Theorem roll_composes_and_inverts {A} (self : DualTransform.t)
    (img : ndarray A) (x1 y1 x2 y2 : Z) :
  well_formed img ->
  Roll.apply self (Roll.apply self img x1 y1) x2 y2
    = Roll.apply self img (x1 + x2) (y1 + y2) /\
  Roll.apply self (Roll.apply self img x1 y1) (- x1) (- y1) = img.
Proof.
  intros Hwf. split; [now apply roll_apply_add|].
  rewrite roll_apply_add by assumption.
  rewrite !Z.add_opp_diag_r. now apply roll_apply_zero.
Qed.

(** Only the shifts modulo the width and the height matter: adding whole
    turns changes nothing, and the default shifts (0, 0), like whole turns
    alone, give back a well-formed image. *)
Theorem roll_whole_turns {A} (self : DualTransform.t) (img : ndarray A)
    (x y k j : Z) :
  Roll.apply self img (x + k * Z.of_nat (shape1 img))
    (y + j * Z.of_nat (shape0 img))
    = Roll.apply self img x y /\
  (well_formed img ->
   Roll.apply self img Roll.default_roll_x Roll.default_roll_y = img /\
   Roll.apply self img (k * Z.of_nat (shape1 img)) (j * Z.of_nat (shape0 img))
     = img).
Proof.
  assert (Hturn : forall x' y',
             Roll.apply self img (x' + k * Z.of_nat (shape1 img))
               (y' + j * Z.of_nat (shape0 img))
             = Roll.apply self img x' y').
  { intros x' y'. unfold Roll.apply, np_roll. simpl.
    now rewrite !roll_offset_period. }
  split; [apply Hturn|].
  intros Hwf. split; [now apply roll_apply_zero|].
  rewrite <- (Z.add_0_l (k * _)), <- (Z.add_0_l (j * _)), Hturn.
  now apply roll_apply_zero.
Qed.

(** ** MaskDropout and MaskDropoutV2: the dropout mask and the fills *)

Lemma or_labels_length (label_image : ndarray Z) (ids : list Z) (dm : BoolMask) :
  List.length (data (or_labels label_image ids dm)) = List.length (data dm).
Proof.
  unfold or_labels. revert dm.
  induction ids as [|id ids IH]; intros dm; simpl; [reflexivity|].
  rewrite IH. simpl. apply zip_or_length.
Qed.

Lemma or_labels_nil (label_image : ndarray Z) (dm : BoolMask) :
  or_labels label_image [] dm = dm.
Proof. reflexivity. Qed.

Lemma assign_where_none {A} (f : A -> A) (n : nat) (xs : list A) :
  assign_where f (repeat false n) xs = xs.
Proof.
  revert n. induction xs as [|x xs IH]; intros [|n]; simpl; auto.
  now rewrite IH.
Qed.

Lemma assign_where_twice {A} (f : A -> A) (ms : list bool) (xs : list A) :
  (forall x, f (f x) = f x) ->
  assign_where f ms (assign_where f ms xs) = assign_where f ms xs.
Proof.
  intros Hf. revert ms. induction xs as [|x xs IH]; intros [|m ms]; simpl; auto.
  rewrite IH. now destruct m; rewrite ?Hf.
Qed.

Lemma assign_where_length {A} (f : A -> A) (ms : list bool) (xs : list A) :
  List.length (assign_where f ms xs) = List.length xs.
Proof.
  revert ms. induction xs as [|x xs IH]; intros [|m ms]; simpl; auto.
Qed.

Lemma ndarray_eta {A} (a : ndarray A) :
  mk_ndarray (shape0 a) (shape1 a) (data a) = a.
Proof. now destruct a. Qed.

Lemma labelled_in_iff (label_image : ndarray Z) (ids : list Z) (i : nat) :
  labelled_in label_image ids i = true <->
  exists v, nth_error (data label_image) i = Some v /\ In v ids.
Proof.
  unfold labelled_in. rewrite existsb_exists. split.
  - intros [id [Hin Hv]].
    destruct (nth_error (data label_image) i) as [v|]; [|discriminate].
    apply Z.eqb_eq in Hv. subst. eauto.
  - intros [v [Hv Hin]]. exists v. rewrite Hv. split; [assumption|].
    apply Z.eqb_refl.
Qed.

Section DropoutTheorems.
Context {R : Runtime} {L : RuntimeLaws R}.

(** After sampling, the dropout mask of either transform is true exactly at
    the positions, within the mask's shape, whose label is one of the
    sampled ids; a position labelled 0, the background, is never marked. *)
Theorem dropout_mask_marks_sampled_labels (self : transform) (m : Mask)
    (li : ndarray Z) (N : Z) (s s' : rng) (d : drawn) (ids : list Z) :
  MaskDropout.draw self m li N s = Ok (d, s') \/
  MaskDropoutV2.draw self m li N s = Ok (d, s') ->
  labels_index d = Some ids ->
  (forall i,
     nth i (data (drawn_mask d)) false
     = ((i <? shape0 m * shape1 m)%nat && labelled_in li ids i)%bool) /\
  (forall i, nth_error (data li) i = Some 0 ->
             nth i (data (drawn_mask d)) false = false).
Proof.
  intros Hdraw Hids.
  assert (Hd : drawn_mask d = or_labels li ids (zeros (shape0 m) (shape1 m)) /\
               forall x, In x ids -> 1 <= x <= N).
  { destruct Hdraw as [H|H].
    - unfold MaskDropout.draw in H. unfold bind at 1 in H.
      destruct (randint _ _ s) as [[k s1]|e]; [|discriminate].
      destruct (Z.min N k =? N).
      + inversion H; subst. discriminate.
      + unfold bind, ret in H.
        destruct (sample _ _ s1) as [[l s2]|e] eqn:Es; [|discriminate].
        inversion H; subst. simpl in Hids. inversion Hids; subst.
        split; [reflexivity|]. now apply sample_labels in Es.
    - unfold MaskDropoutV2.draw, bind, ret in H.
      destruct (randint _ _ s) as [[k s1]|e]; [|discriminate].
      destruct (sample _ _ s1) as [[l s2]|e] eqn:Es; [|discriminate].
      inversion H; subst. simpl in Hids. inversion Hids; subst.
      split; [reflexivity|]. now apply sample_labels in Es. }
  destruct Hd as [-> Hrange].
  assert (Hnth : forall i,
             nth i (data (or_labels li ids (zeros (shape0 m) (shape1 m)))) false
             = ((i <? shape0 m * shape1 m)%nat && labelled_in li ids i)%bool)
    by (intros i; apply or_labels_zeros).
  split; [exact Hnth|].
  intros i Hbg. rewrite Hnth.
  destruct (labelled_in li ids i) eqn:E; [|apply andb_false_r].
  apply labelled_in_iff in E. destruct E as [v [Hv Hin]].
  rewrite Hbg in Hv. inversion Hv; subst v. apply Hrange in Hin. lia.
Qed.

(** The fixed-count policy with bounds 0 <= min <= max always draws: the
    count lies between min and max, both clipped to the number N of labels,
    hence within 0..N. *)
Theorem fixed_count_clipped (self : transform) (m : Mask) (li : ndarray Z)
    (N lo hi : Z) (s : rng) :
  max_objects self = (PyInt lo, PyInt hi) -> 0 <= lo <= hi -> 1 <= N ->
  exists d s',
    MaskDropout.draw self m li N s = Ok (d, s') /\
    Z.min lo N <= objects_to_drop d <= Z.min hi N /\
    0 <= objects_to_drop d <= N.
Proof.
  intros Hb Hlo HN.
  destruct (randint_range lo hi s ltac:(lia)) as [k [s1 [E Hk]]].
  assert (E' : randint (fst (max_objects self)) (snd (max_objects self)) s
               = Ok (k, s1)) by (now rewrite Hb).
  rewrite (draw_V1_after_randint _ m li N _ _ _ E').
  destruct (Z.min N k =? N).
  - eexists; eexists. split; [reflexivity|]. simpl. lia.
  - destruct (sample_ok (range 1 (N + 1)) (Z.min N k) s1) as [ids [s2 [E2 _]]].
    { rewrite range_length. lia. }
    unfold bind, ret. rewrite E2.
    eexists; eexists. split; [reflexivity|]. simpl. lia.
Qed.

(** A negative draw ends either transform in the ValueError of
    [random.sample]; fixed bounds min <= max < 0 do so on every call. *)
Theorem negative_draw_raises (self : transform) (params : Params) (s : rng) :
  let N := snd (label (mask params)) in
  1 <= N ->
  (forall k s1,
     randint (fst (max_objects self)) (snd (max_objects self)) s = Ok (k, s1) ->
     k < 0 ->
     MaskDropout.get_params_dependent_on_targets self params s
       = Raise ValueError) /\
  (forall k s1,
     randint (PyInt (int (int_mul N (fst (max_objects self)))))
             (PyInt (int (int_mul N (snd (max_objects self))))) s = Ok (k, s1) ->
     k < 0 ->
     MaskDropoutV2.get_params_dependent_on_targets self params s
       = Raise ValueError) /\
  (forall lo hi,
     max_objects self = (PyInt lo, PyInt hi) -> lo <= hi < 0 ->
     MaskDropout.get_params_dependent_on_targets self params s
       = Raise ValueError).
Proof.
  intros N HN.
  assert (H1 : forall k s1,
             randint (fst (max_objects self)) (snd (max_objects self)) s
               = Ok (k, s1) ->
             k < 0 ->
             MaskDropout.get_params_dependent_on_targets self params s
               = Raise ValueError).
  { intros k s1 E Hk.
    unfold MaskDropout.get_params_dependent_on_targets. subst N.
    destruct (label (mask params)) as [li N]. cbn [snd] in *.
    some_labels N. unfold bind at 1. unfold bind at 1.
    rewrite (draw_V1_after_randint _ _ _ _ _ _ _ E).
    replace (Z.min N k =? N) with false by (symmetry; apply Z.eqb_neq; lia).
    unfold bind. rewrite sample_bad by (left; lia). reflexivity. }
  split; [exact H1|]. split.
  - intros k s1 E Hk.
    unfold MaskDropoutV2.get_params_dependent_on_targets. subst N.
    destruct (label (mask params)) as [li N]. cbn [snd] in *.
    some_labels N. unfold MaskDropoutV2.draw, bind.
    rewrite E, sample_bad by (left; lia). reflexivity.
  - intros lo hi Hb Hneg.
    destruct (randint_range lo hi s ltac:(lia)) as [k [s1 [E Hk]]].
    apply (H1 k s1); [now rewrite Hb | lia].
Qed.

(** When even the smallest count reaches the number N of labels, every call
    of the fixed-count transform drops the whole foreground: the dropout
    mask is [mask > 0], and [apply_to_mask] overwrites exactly the positive
    samples; filled with 0, a mask of non-negative samples comes back all
    zero. *)
Theorem all_objects_dropped_empties_mask (self : transform) (params : Params)
    (s : rng) (lo hi : Z) :
  let m := mask params in
  max_objects self = (PyInt lo, PyInt hi) -> lo <= hi ->
  1 <= snd (label m) <= lo ->
  exists s',
    MaskDropout.get_params_dependent_on_targets self params s
      = Ok (update params (Some (gt_scalar m 0)), s') /\
    forall c, setitem_cast (Num (mask_fill_value self)) = Ok c ->
      exists m',
        MaskDropout.apply_to_mask self m (Some (gt_scalar m 0)) = Ok m' /\
        shape m' = shape m /\
        (forall i v, nth_error (data m) i = Some v ->
                     nth_error (data m') i = Some (if 0 <? v then c else v)) /\
        (c = 0 -> (forall v, In v (data m) -> 0 <= v) ->
         forall v, In v (data m') -> v = 0).
Proof.
  intros m Hb Hle HN.
  destruct (randint_range lo hi s Hle) as [k [s1 [E Hk]]].
  assert (E' : randint (fst (max_objects self)) (snd (max_objects self)) s
               = Ok (k, s1)) by (now rewrite Hb).
  exists s1. split.
  - unfold MaskDropout.get_params_dependent_on_targets. subst m.
    destruct (label (mask params)) as [li N]. cbn [snd] in *.
    some_labels N. unfold bind at 1. unfold bind at 1.
    rewrite (draw_V1_after_randint _ _ _ _ _ _ _ E').
    replace (Z.min N k =? N) with true by (symmetry; apply Z.eqb_eq; lia).
    reflexivity.
  - intros c Hc. unfold MaskDropout.apply_to_mask, setitem. rewrite Hc.
    replace (shape_eqb (gt_scalar m 0) m) with true
      by (symmetry; now apply shape_eqb_true).
    eexists. split; [reflexivity|]. split; [reflexivity|].
    assert (Hpos : forall i v, nth_error (data m) i = Some v ->
              nth_error (assign_where (write_sample c) (data (gt_scalar m 0))
                           (data m)) i = Some (if 0 <? v then c else v)).
    { intros i v Hv. rewrite assign_where_nth, Hv. cbn [option_map].
      rewrite gt_scalar_nth. rewrite (nth_error_nth _ _ 0 Hv). reflexivity. }
    split; [exact Hpos|].
    intros -> Hnn v Hin. cbn [data] in Hin.
    apply In_nth_error in Hin. destruct Hin as [i Hi].
    destruct (nth_error (data m) i) as [v0|] eqn:Hv0.
    + rewrite (Hpos i v0 Hv0) in Hi. inversion Hi.
      pose proof (Hnn v0 (nth_error_In _ _ Hv0)).
      destruct (0 <? v0) eqn:Ev; [reflexivity|].
      apply Z.ltb_ge in Ev. lia.
    + apply nth_error_None in Hv0.
      assert (Hsome : nth_error (assign_where (write_sample 0)
                         (data (gt_scalar m 0)) (data m)) i <> None)
        by (rewrite Hi; discriminate).
      apply nth_error_Some in Hsome. rewrite assign_where_length in Hsome. lia.
Qed.

(** A draw of 0 selects nothing: either transform returns a dropout mask
    that is present but false everywhere, and the fills give back the image
    and the mask as they were. *)
Theorem zero_draw_drops_nothing (self : transform) (params : Params)
    (img : Image) (s s1 : rng) :
  let m := mask params in
  let N := snd (label m) in
  let nothing := zeros (shape0 m) (shape1 m) in
  1 <= N ->
  (randint (fst (max_objects self)) (snd (max_objects self)) s = Ok (0, s1) ->
   exists s',
     MaskDropout.get_params_dependent_on_targets self params s
       = Ok (update params (Some nothing), s')) /\
  (randint (PyInt (int (int_mul N (fst (max_objects self)))))
           (PyInt (int (int_mul N (snd (max_objects self))))) s = Ok (0, s1) ->
   exists s',
     MaskDropoutV2.get_params_dependent_on_targets self params s
       = Ok (update params (Some nothing), s')) /\
  (forall c, shape img = shape m ->
     fill_is (image_fill_value self) "inpaint" = false ->
     setitem_cast (image_fill_value self) = Ok c ->
     MaskDropout.apply self img (Some nothing) = Ok img) /\
  (forall c, setitem_cast (Num (mask_fill_value self)) = Ok c ->
     MaskDropout.apply_to_mask self m (Some nothing) = Ok m).
Proof.
  intros m N nothing HN.
  assert (Hsample : exists s', sample (range 1 (N + 1)) 0 s1 = Ok ([], s')).
  { destruct (sample_ok (range 1 (N + 1)) 0 s1) as [l [s' [E [Hlen _]]]].
    { rewrite range_length. lia. }
    destruct l; [eauto | simpl in Hlen; lia]. }
  destruct Hsample as [s' Es].
  split; [|split; [|split]].
  - intros E. exists s'.
    unfold MaskDropout.get_params_dependent_on_targets. subst nothing N m.
    destruct (label (mask params)) as [li N]. cbn [snd] in *.
    some_labels N. unfold bind at 1. unfold bind at 1.
    rewrite (draw_V1_after_randint _ _ _ _ _ _ _ E).
    replace (Z.min N 0) with 0 by lia.
    replace (0 =? N) with false by (symmetry; apply Z.eqb_neq; lia).
    unfold bind, ret. now rewrite Es.
  - intros E. exists s'.
    unfold MaskDropoutV2.get_params_dependent_on_targets. subst nothing N m.
    destruct (label (mask params)) as [li N]. cbn [snd] in *.
    some_labels N. unfold MaskDropoutV2.draw, bind, ret. now rewrite E, Es.
  - intros c Hs Hfill Hc. unfold MaskDropout.apply, setitem.
    rewrite Hfill, Hc.
    replace (shape_eqb nothing img) with true
      by (symmetry; apply shape_eqb_true; now rewrite Hs).
    simpl. rewrite assign_where_none. now rewrite ndarray_eta.
  - intros c Hc. unfold MaskDropout.apply_to_mask, setitem. rewrite Hc.
    replace (shape_eqb nothing m) with true
      by (symmetry; now apply shape_eqb_true).
    simpl. rewrite assign_where_none. now rewrite ndarray_eta.
Qed.

(** Filling is idempotent: filling an output again through the same dropout
    mask returns it unchanged, for the image and for the mask. *)
Theorem fill_is_idempotent (self : transform) (img img1 : Image)
    (m m1 : Mask) (dm : BoolMask) :
  fill_is (image_fill_value self) "inpaint" = false ->
  (MaskDropout.apply self img (Some dm) = Ok img1 ->
   MaskDropout.apply self img1 (Some dm) = Ok img1) /\
  (MaskDropout.apply_to_mask self m (Some dm) = Ok m1 ->
   MaskDropout.apply_to_mask self m1 (Some dm) = Ok m1).
Proof.
  intros Hfill. unfold MaskDropout.apply, MaskDropout.apply_to_mask, setitem.
  rewrite Hfill. split.
  - destruct (shape_eqb dm img) eqn:Es; [|discriminate].
    destruct (setitem_cast (image_fill_value self)) as [c|e]; [|discriminate].
    intros H; inversion H; subst; clear H.
    unfold shape_eqb in *; simpl. rewrite Es.
    rewrite assign_where_twice; [reflexivity|].
    intros px. unfold write_pixel. now rewrite map_map.
  - destruct (shape_eqb dm m) eqn:Es; [|discriminate].
    destruct (setitem_cast (Num (mask_fill_value self))) as [c|e]; [|discriminate].
    intros H; inversion H; subst; clear H.
    unfold shape_eqb in *; simpl. rewrite Es.
    now rewrite assign_where_twice.
Qed.

(** When both scaled bounds of the fraction-count transform equal N (as with
    fractions (1.0, 1.0)), every label is selected: the sampled ids are a
    permutation of 1..N and the dropout mask is true exactly where the label
    image is labelled. *)
Theorem full_fraction_selects_every_label (self : transform) (m : Mask)
    (li : ndarray Z) (N : Z) (s : rng) :
  1 <= N ->
  int (int_mul N (fst (max_objects self))) = N ->
  int (int_mul N (snd (max_objects self))) = N ->
  exists d s' ids,
    MaskDropoutV2.draw self m li N s = Ok (d, s') /\
    objects_to_drop d = N /\
    labels_index d = Some ids /\
    Permutation ids (range 1 (N + 1)) /\
    forall i,
      nth i (data (drawn_mask d)) false = true <->
      (i < shape0 m * shape1 m)%nat /\
      exists v, nth_error (data li) i = Some v /\ 1 <= v <= N.
Proof.
  intros HN Hlo Hhi. unfold MaskDropoutV2.draw. rewrite Hlo, Hhi.
  destruct (randint_range N N s ltac:(lia)) as [k [s1 [E Hk]]].
  assert (k = N) by lia. subst k.
  destruct (sample_ok (range 1 (N + 1)) N s1)
    as [ids [s2 [E2 [Hlen [rest Hperm]]]]].
  { rewrite range_length. lia. }
  assert (Hrest : rest = []).
  { apply Permutation_length in Hperm.
    rewrite length_app, range_length in Hperm.
    apply length_zero_iff_nil. lia. }
  subst rest. rewrite app_nil_r in Hperm.
  unfold bind, ret. rewrite E, E2.
  eexists; eexists; exists ids.
  split; [reflexivity|]. split; [reflexivity|]. split; [reflexivity|].
  split; [exact Hperm|].
  intros i. simpl. rewrite or_labels_zeros, andb_true_iff, Nat.ltb_lt.
  rewrite labelled_in_iff. split.
  - intros [Hi [v [Hv Hin]]]. split; [exact Hi|]. exists v. split; [exact Hv|].
    apply (Permutation_in _ Hperm), range_In in Hin. lia.
  - intros [Hi [v [Hv Hr]]]. split; [exact Hi|]. exists v. split; [exact Hv|].
    apply (Permutation_in _ (Permutation_sym Hperm)), range_In. lia.
Qed.

End DropoutTheorems.

Section MoreDropoutTheorems.
Context {R : Runtime}.

Lemma drawn_mask_cases (self : transform) (m : Mask) (li : ndarray Z) (N : Z)
    (s s' : rng) (d : drawn) :
  MaskDropout.draw self m li N s = Ok (d, s') \/
  MaskDropoutV2.draw self m li N s = Ok (d, s') ->
  drawn_mask d = gt_scalar m 0 \/
  exists ids, drawn_mask d = or_labels li ids (zeros (shape0 m) (shape1 m)).
Proof.
  intros [H|H].
  - unfold MaskDropout.draw in H. unfold bind at 1 in H.
    destruct (randint _ _ s) as [[k s1]|e]; [|discriminate].
    destruct (Z.min N k =? N).
    + inversion H; subst. now left.
    + unfold bind, ret in H.
      destruct (sample _ _ s1) as [[l s2]|e]; [|discriminate].
      inversion H; subst. right. now exists l.
  - unfold MaskDropoutV2.draw, bind, ret in H.
    destruct (randint _ _ s) as [[k s1]|e]; [|discriminate].
    destruct (sample _ _ s1) as [[l s2]|e]; [|discriminate].
    inversion H; subst. right. now exists l.
Qed.

(** What a returning call of [get_params_dependent_on_targets] leaves in
    [params], for either transform: the mask entry is untouched; the dropout
    mask is absent exactly when labeling found nothing; a dropout mask that
    is present has the shape of the mask and, for a well-formed mask, a
    buffer of that size. *)
Theorem dropout_mask_follows_mask (self : transform) (params params' : Params)
    (s s' : rng) :
  MaskDropout.get_params_dependent_on_targets self params s = Ok (params', s') \/
  MaskDropoutV2.get_params_dependent_on_targets self params s = Ok (params', s') ->
  mask params' = mask params /\
  (dropout_mask params' = None <-> snd (label (mask params)) = 0) /\
  forall dm, dropout_mask params' = Some dm ->
    shape dm = shape (mask params) /\
    (well_formed (mask params) -> well_formed dm).
Proof.
  intros Hget.
  assert (Hcases :
    (snd (label (mask params)) = 0 /\ params' = update params None) \/
    (snd (label (mask params)) <> 0 /\
     exists d s0 s1,
       (MaskDropout.draw self (mask params) (fst (label (mask params)))
          (snd (label (mask params))) s0 = Ok (d, s1) \/
        MaskDropoutV2.draw self (mask params) (fst (label (mask params)))
          (snd (label (mask params))) s0 = Ok (d, s1)) /\
       params' = update params (Some (drawn_mask d)))).
  { destruct Hget as [H|H];
      [unfold MaskDropout.get_params_dependent_on_targets in H
      |unfold MaskDropoutV2.get_params_dependent_on_targets in H];
      destruct (label (mask params)) as [li N]; cbn [fst snd];
      unfold bind at 1 in H;
      (destruct (N =? 0) eqn:EN;
       [ apply Z.eqb_eq in EN; inversion H; subst; left; now split
       | apply Z.eqb_neq in EN; unfold bind at 1 in H; right; split; [exact EN|] ]).
    - destruct (MaskDropout.draw self (mask params) li N s) as [[d s1]|e] eqn:E;
        [|discriminate].
      inversion H; subst. exists d, s, s'. split; [now left | reflexivity].
    - destruct (MaskDropoutV2.draw self (mask params) li N s) as [[d s1]|e] eqn:E;
        [|discriminate].
      inversion H; subst. exists d, s, s'. split; [now right | reflexivity]. }
  destruct Hcases as [[HN ->]|[HN [d [s0 [s1 [Hdraw ->]]]]]]; simpl.
  - split; [reflexivity|]. split; [tauto|]. intros dm Hdm. discriminate.
  - split; [reflexivity|]. split; [split; [discriminate | contradiction]|].
    intros dm Hdm. inversion Hdm; subst dm; clear Hdm.
    destruct (drawn_mask_cases _ _ _ _ _ _ _ Hdraw) as [->|[ids ->]].
    + split; [reflexivity|]. unfold well_formed, gt_scalar, amap; simpl.
      now rewrite length_map.
    + split; [apply or_labels_shape|]. intros _. unfold well_formed.
      rewrite or_labels_length.
      assert (Hs := or_labels_shape (fst (label (mask params))) ids
                      (zeros (shape0 (mask params)) (shape1 (mask params)))).
      unfold shape in Hs. injection Hs as H0 H1. rewrite H0, H1.
      simpl. apply repeat_length.
Qed.

(** The radius of the inpainting call stays within 0..3 for a bounding box
    of non-negative sides: it is 3 once the longer side reaches 6 and 0 for
    a box no longer than one pixel. *)
Theorem inpaint_radius_range (self : transform) (img : Image) (dm : BoolMask)
    (x y w h : Z) :
  fill_is (image_fill_value self) "inpaint" = true ->
  boundingRect (astype_uint8 dm) = (x, y, w, h) ->
  0 <= w -> 0 <= h ->
  exists radius,
    MaskDropout.apply self img (Some dm)
      = inpaint img (astype_uint8 dm) radius INPAINT_NS /\
    0 <= radius <= 3 /\
    (radius = 3 <-> 6 <= Z.max w h) /\
    (radius = 0 <-> Z.max w h <= 1).
Proof.
  intros Hfill Hbox Hw Hh. exists (Z.min 3 (Z.max w h / 2)).
  split.
  { unfold MaskDropout.apply. now rewrite Hfill, Hbox. }
  assert (HM : 0 <= Z.max w h) by lia.
  pose proof (Z.div_mod (Z.max w h) 2 ltac:(lia)) as Hdm.
  pose proof (Z.mod_pos_bound (Z.max w h) 2 ltac:(lia)) as Hmod.
  generalize dependent (Z.max w h / 2). generalize dependent (Z.max w h mod 2).
  generalize dependent (Z.max w h). intros M HM r Hr q Hq. lia.
Qed.

End MoreDropoutTheorems.

(** ** The further properties on concrete inputs *)

Section MoreConcrete.
Import Examples MoreExamples.


Lemma roll_moves_image_and_mask_together_witness :
  getitem (Roll.apply roll grid 1 1) 2 3 = Some 12 /\
  getitem (Roll.apply_to_mask roll flags 1 1) 2 3 = Some true.
Proof.
  destruct (@roll_moves_image_and_mask_together Z bool roll grid flags 1 1 2 3)
    as [Hi [Hm _]].
  - reflexivity.
  - reflexivity.
  - reflexivity.
  - simpl. lia.
  - simpl. lia.
  - split; [exact Hi | exact Hm].
Defined.

Lemma roll_keeps_every_pixel_witness :
  Permutation (data (Roll.apply roll grid 5 (-4))) (data grid).
Proof.
  destruct (@roll_keeps_every_pixel Z roll grid 5 (-4)) as [_ [_ H]].
  - reflexivity.
  - exact H.
Defined.

Lemma roll_composes_and_inverts_witness :
  Roll.apply roll (Roll.apply roll grid 1 2) (-1) (-2) = grid.
Proof.
  destruct (@roll_composes_and_inverts Z roll grid 1 2 0 0) as [_ H].
  - reflexivity.
  - exact H.
Defined.

Lemma roll_whole_turns_witness :
  Roll.apply roll grid (2 * 4) (-1 * 3) = grid.
Proof.
  destruct (@roll_whole_turns Z roll grid 0 0 2 (-1)) as [_ H].
  destruct H as [_ H].
  - reflexivity.
  - exact H.
Defined.

Lemma dropout_mask_marks_sampled_labels_witness :
  nth 18 (data second_blob) false
    = ((18 <? 5 * 5)%nat && labelled_in (fst (Ref.label two_blobs)) [2] 18)%bool /\
  nth 0 (data second_blob) false
    = ((0 <? 5 * 5)%nat && labelled_in (fst (Ref.label two_blobs)) [2] 0)%bool /\
  nth 2 (data second_blob) false = false.
Proof.
  destruct (@dropout_mask_marks_sampled_labels Ref.runtime RefLaws.laws
              drop_one two_blobs (fst (Ref.label two_blobs)) 2 [0; 1] []
              (mk_drawn 1 (Some [2]) second_blob) [2]) as [H Hbg].
  - left. vm_compute. reflexivity.
  - reflexivity.
  - split; [exact (H 18%nat)|]. split; [exact (H 0%nat)|].
    apply (Hbg 2%nat). reflexivity.
Defined.

Lemma fixed_count_clipped_witness :
  exists d s',
    @MaskDropout.draw Ref.runtime drop_up_to_three two_blobs
      (fst (Ref.label two_blobs)) 2 [1] = Ok (d, s') /\
    Z.min 1 2 <= objects_to_drop d <= Z.min 3 2 /\
    0 <= objects_to_drop d <= 2.
Proof.
  apply (@fixed_count_clipped Ref.runtime RefLaws.laws drop_up_to_three
           two_blobs (fst (Ref.label two_blobs)) 2 1 3 [1]).
  - reflexivity.
  - lia.
  - lia.
Defined.


Lemma negative_draw_raises_witness :
  @MaskDropout.get_params_dependent_on_targets Ref.runtime drop_negative
    (mk_params two_blobs None) [5] = Raise ValueError.
Proof.
  destruct (@negative_draw_raises Ref.runtime RefLaws.laws drop_negative
              (mk_params two_blobs None) [5]) as [_ [_ H]].
  - vm_compute. discriminate.
  - apply (H (-4) (-2)); [reflexivity | lia].
Defined.

Lemma all_objects_dropped_empties_mask_witness :
  exists s',
    @MaskDropout.get_params_dependent_on_targets Ref.runtime drop_two_to_five
      (mk_params two_blobs None) [0]
    = Ok (mk_params two_blobs (Some (gt_scalar two_blobs 0)), s').
Proof.
  destruct (@all_objects_dropped_empties_mask Ref.runtime RefLaws.laws
              drop_two_to_five (mk_params two_blobs None) [0] 2 5)
    as [s' [H _]].
  - reflexivity.
  - lia.
  - vm_compute. split; discriminate.
  - exists s'. exact H.
Defined.

Lemma zero_draw_drops_nothing_witness :
  exists s',
    @MaskDropout.get_params_dependent_on_targets Ref.runtime drop_none
      (mk_params two_blobs None) [5]
    = Ok (mk_params two_blobs (Some (zeros 5 5)), s').
Proof.
  destruct (@zero_draw_drops_nothing Ref.runtime RefLaws.laws drop_none
              (mk_params two_blobs None) rgb [5] []) as [H _].
  - vm_compute. discriminate.
  - apply H. reflexivity.
Defined.

Lemma fill_is_idempotent_witness :
  @MaskDropout.apply Ref.runtime drop_one rgb_dropped (Some second_blob)
  = Ok rgb_dropped.
Proof.
  destruct (@fill_is_idempotent Ref.runtime drop_one rgb rgb_dropped
              two_blobs two_blobs second_blob) as [H _].
  - reflexivity.
  - apply H. reflexivity.
Defined.

Lemma full_fraction_selects_every_label_witness :
  exists d s' ids,
    @MaskDropoutV2.draw Ref.runtime every_label two_blobs
      (fst (Ref.label two_blobs)) 2 [0; 0] = Ok (d, s') /\
    objects_to_drop d = 2 /\
    Permutation ids (range 1 3).
Proof.
  destruct (@full_fraction_selects_every_label Ref.runtime RefLaws.laws
              every_label two_blobs (fst (Ref.label two_blobs)) 2 [0; 0])
    as [d [s' [ids [E [Hc [_ [Hp _]]]]]]].
  - lia.
  - reflexivity.
  - reflexivity.
  - exists d, s', ids. repeat split; assumption.
Defined.

Lemma dropout_mask_follows_mask_witness :
  shape second_blob = shape two_blobs /\ well_formed second_blob.
Proof.
  destruct (@dropout_mask_follows_mask Ref.runtime drop_one
              (mk_params two_blobs None)
              (mk_params two_blobs (Some second_blob)) [0; 1] [])
    as [_ [_ H]].
  - left. vm_compute. reflexivity.
  - destruct (H second_blob eq_refl) as [Hs Hw].
    split; [exact Hs | apply Hw; reflexivity].
Defined.

(** A dropout region of a single pixel is inpainted with radius 0. *)
Lemma inpaint_radius_range_witness :
  exists radius,
    @MaskDropout.apply Ref.runtime inpainting gray (Some gray_dropout)
      = Ref.inpaint gray (astype_uint8 gray_dropout) radius INPAINT_NS /\
    radius = 0.
Proof.
  destruct (@inpaint_radius_range Ref.runtime inpainting gray gray_dropout
              1 0 1 1) as [radius [E [_ [_ H0]]]].
  - reflexivity.
  - reflexivity.
  - lia.
  - lia.
  - exists radius. split; [exact E|]. apply H0. simpl. lia.
Defined.

End MoreConcrete.
